(** * Verification of the generation handler of flue-frontend

    Shallow embedding of [pkg/server/server.go]: the form parsing helpers
    [parseFormInt] and [parseFormFloat], the rounding helper [roundFloat],
    and the [generate] handler, with the pieces of the Go standard library
    they call ([strconv.Atoi], [strconv.ParseFloat], [math.Pow],
    [math.Round], [encoding/json], [time.Duration.Seconds]).

    Go strings are byte strings: they are modelled as [string] (a list of
    8-bit [ascii]).  Go [int] is 64 bits wide: a [Z] within
    [MinInt .. MaxInt].  Go [float64] is IEEE 754 binary64: the
    [spec_float] of the Standard Library with precision 53 and
    maximal exponent 1024, with its correctly rounded operations. *)

From Stdlib Require Import ZArith Lia Bool List String Ascii.
From Stdlib Require Import Floats.SpecFloat.
From Stdlib Require Import Sorted Permutation.
Import ListNotations.
Set Warnings "-register-all".
Open Scope Z_scope.

(** ** Bytes and Go ints *)

Definition byte_val (c : ascii) : Z := Z.of_N (N_of_ascii c).

Definition ascii_of_Z (z : Z) : ascii := ascii_of_N (Z.to_N z).

(** [lower] of [strconv]: [c | ('x' - 'X')]. *)
Definition lower (c : ascii) : ascii := ascii_of_Z (Z.lor (byte_val c) 32).

Definition is_digit (c : ascii) : bool :=
  (48 <=? byte_val c) && (byte_val c <=? 57).

Definition digit_val (c : ascii) : Z := byte_val c - 48.

Definition MinInt : Z := - 2 ^ 63.
Definition MaxInt : Z := 2 ^ 63 - 1.

(** Decimal rendering of an integer ([%d] of [fmt], [strconv.Itoa]). *)
Fixpoint pos_digits (fuel : nat) (n : Z) (acc : string) : string :=
  match fuel with
  | O => acc
  | S fuel' =>
      let acc' := String (ascii_of_Z (48 + n mod 10)) acc in
      if n <? 10 then acc' else pos_digits fuel' (n / 10) acc'
  end.

Definition fmt_d (n : Z) : string :=
  if n <? 0 then String "-" (pos_digits (Z.to_nat (Z.log2 (- n)) + 2) (- n) EmptyString)
  else pos_digits (Z.to_nat (Z.log2 n) + 2) n EmptyString.

(** ** [strconv.Atoi]

    On a 64-bit platform [Atoi] takes a fast path for strings of fewer than
    19 bytes (optional sign, then decimal digits only) and otherwise calls
    [ParseInt(s, 10, 0)], which with an explicit base accepts the same
    syntax (no underscores, no base prefix) and fails with [ErrRange]
    outside the int64 range.  Both paths accept exactly the strings
    [[+-]?[0-9]+] whose value is an int64; [None] is a non-nil error. *)
Fixpoint digits_value (s : string) (acc : Z) : option Z :=
  match s with
  | EmptyString => Some acc
  | String c rest =>
      if is_digit c then digits_value rest (acc * 10 + digit_val c) else None
  end.

Definition Atoi (s : string) : option Z :=
  match s with
  | EmptyString => None
  | String c rest =>
      let '(neg, body) :=
        if Ascii.eqb c "-"%char then (true, rest)
        else if Ascii.eqb c "+"%char then (false, rest)
        else (false, s) in
      match body with
      | EmptyString => None
      | _ =>
          match digits_value body 0 with
          | None => None
          | Some u =>
              let n := if neg then - u else u in
              if (MinInt <=? n) && (n <=? MaxInt) then Some n else None
          end
      end
  end.

(** ** [parseFormInt]

    Errors are the text of the [fmt.Errorf] error value. *)
Definition parseFormInt (field : string) (min max : Z) : Z + string :=
  let valStr := field in
  match Atoi valStr with
  | None => inr ("invalid integer: " ++ valStr)%string
  | Some val =>
      if (val <? min) || (val >? max) then
        inr ("value out of range: " ++ fmt_d val ++ " (expected between "
             ++ fmt_d min ++ " and " ++ fmt_d max ++ ")")%string
      else inl val
  end.

(** ** Go [float64] *)

Definition prec : Z := 53.
Definition emax : Z := 1024.

Abbreviation float64 := spec_float.

Definition fmul := SFmul prec emax.
Definition fdiv := SFdiv prec emax.
Definition fadd := SFadd prec emax.

(** [x < y] on [float64]: false as soon as one side is NaN. *)
Definition flt (x y : float64) : bool := SFltb x y.

(** The binary64 value nearest to the integer [n] ([float64(n)]). *)
Definition float_of_Z (n : Z) : float64 := binary_normalize prec emax n 0 false.

Definition NaN : float64 := S754_nan.

Definition is_inf (f : float64) : bool :=
  match f with S754_infinity _ => true | _ => false end.

(** Correct rounding (to nearest, ties to even) of [m * 10^k] and of
    [m * 2^k] for [m >= 0]: the value [strconv.ParseFloat] returns for a
    decimal, respectively hexadecimal, literal; [neg] is the sign. *)
Definition round_decimal (neg : bool) (m k : Z) : float64 :=
  if m =? 0 then S754_zero neg
  else if 0 <=? k then
    binary_normalize prec emax (if neg then - (m * 10 ^ k) else m * 10 ^ k) 0 neg
  else
    let '(q, e', l) := SFdiv_core_binary prec emax m 0 (10 ^ (- k)) 0 in
    binary_round_aux prec emax neg q e' l.

Definition round_binary (neg : bool) (m k : Z) : float64 :=
  if m =? 0 then S754_zero neg
  else binary_normalize prec emax (if neg then - m else m) k neg.

(** ** [strconv.ParseFloat(s, 64)] *)

(** [commonPrefixLenIgnoreCase]: [prefix] is lower case. *)
Fixpoint commonPrefixLenIgnoreCase (s prefix : string) : nat :=
  match s, prefix with
  | String c s', String p prefix' =>
      let c := if (65 <=? byte_val c) && (byte_val c <=? 90)
               then ascii_of_Z (byte_val c + 32) else c in
      if Ascii.eqb c p then S (commonPrefixLenIgnoreCase s' prefix') else O
  | _, _ => O
  end.

Definition Inf (neg : bool) : float64 := S754_infinity neg.

(** [special]: the value and the number of bytes of a leading
    "inf", "infinity" (optionally signed) or "nan". *)
Definition special (s : string) : option (float64 * nat) :=
  let infinity (neg : bool) (nsign : nat) (s : string) :=
    let n := commonPrefixLenIgnoreCase s "infinity" in
    let n := if (3 <? n)%nat && (n <? 8)%nat then 3%nat else n in
    if (n =? 3)%nat || (n =? 8)%nat then Some (Inf neg, (nsign + n)%nat)
    else None in
  match s with
  | EmptyString => None
  | String c s' =>
      if Ascii.eqb c "+"%char then infinity false 1%nat s'
      else if Ascii.eqb c "-"%char then infinity true 1%nat s'
      else if Ascii.eqb c "i"%char || Ascii.eqb c "I"%char then infinity false 0%nat s
      else if Ascii.eqb c "n"%char || Ascii.eqb c "N"%char then
        if (commonPrefixLenIgnoreCase s "nan" =? 3)%nat then Some (NaN, 3%nat) else None
      else None
  end.

(** [underscoreOK]: underscores only between digits (or after a base
    prefix).  [saw] is '^' at the start, '0' after a digit or prefix,
    '_' after an underscore and '!' otherwise. *)
Fixpoint underscore_loop (hex : bool) (saw : ascii) (s : string) : bool :=
  match s with
  | EmptyString => negb (Ascii.eqb saw "_"%char)
  | String c s' =>
      if is_digit c || hex && (97 <=? byte_val (lower c)) && (byte_val (lower c) <=? 102)
      then underscore_loop hex "0"%char s'
      else if Ascii.eqb c "_"%char then
        if Ascii.eqb saw "0"%char then underscore_loop hex "_"%char s' else false
      else if Ascii.eqb saw "_"%char then false
      else underscore_loop hex "!"%char s'
  end.

Definition underscoreOK (s : string) : bool :=
  let s := match s with
           | String c s' => if Ascii.eqb c "-"%char || Ascii.eqb c "+"%char then s' else s
           | EmptyString => s
           end in
  match s with
  | String z (String b s') =>
      if Ascii.eqb z "0"%char &&
         (Ascii.eqb (lower b) "b"%char || Ascii.eqb (lower b) "o"%char
          || Ascii.eqb (lower b) "x"%char)
      then underscore_loop (Ascii.eqb (lower b) "x"%char) "0"%char s'
      else underscore_loop false "^"%char s
  | _ => underscore_loop false "^"%char s
  end.

(** State of the mantissa loop of [readFloat].  The mantissa is kept in
    full: Go keeps its first 19 (16 hexadecimal) digits and a [trunc] flag,
    and its conversion ([eiselLemire64], then the exact [decimal]
    algorithm when [trunc] leaves a doubt, or [atofHex] with [trunc] as a
    sticky bit) returns the correctly rounded value of the full literal. *)
Record mant_state := MantState {
  underscores : bool; sawdot : bool; sawdigits : bool;
  nd : Z; dp : Z; mant : Z }.

Fixpoint mant_loop (hex : bool) (st : mant_state) (s : string) : mant_state * string :=
  let base := if hex then 16 else 10 in
  match s with
  | EmptyString => (st, s)
  | String c s' =>
      let '(MantState us sd sg n d m) := st in
      if Ascii.eqb c "_"%char then mant_loop hex (MantState true sd sg n d m) s'
      else if Ascii.eqb c "."%char then
        if sd then (st, s) else mant_loop hex (MantState us true sg n n m) s'
      else if is_digit c then
        if Ascii.eqb c "0"%char && (n =? 0) then
          mant_loop hex (MantState us sd true n (d - 1) m) s'
        else mant_loop hex (MantState us sd true (n + 1) d (m * base + digit_val c)) s'
      else if hex && (97 <=? byte_val (lower c)) && (byte_val (lower c) <=? 102) then
        mant_loop hex (MantState us sd true (n + 1) d (m * 16 + (byte_val (lower c) - 87))) s'
      else (st, s)
  end.

(** Digits (and underscores) of the exponent; Go stops accumulating once
    the exponent reaches 10000. *)
Fixpoint exp_loop (e : Z) (us : bool) (s : string) : Z * bool * string :=
  match s with
  | String c s' =>
      if is_digit c then
        exp_loop (if e <? 10000 then e * 10 + digit_val c else e) us s'
      else if Ascii.eqb c "_"%char then exp_loop e true s'
      else (e, us, s)
  | EmptyString => (e, us, s)
  end.

(** [readFloat]: on success the sign, whether the literal is hexadecimal,
    the full mantissa, the exponent applying to it (of 10, or of 2 for
    hexadecimal) and the unread rest of the string. *)
Definition readFloat (s0 : string) : option (bool * bool * Z * Z * string) :=
  let '(neg, s) :=
    match s0 with
    | String c s' =>
        if Ascii.eqb c "+"%char then (false, s')
        else if Ascii.eqb c "-"%char then (true, s')
        else (false, s0)
    | EmptyString => (false, s0)
    end in
  let '(hex, s) :=
    match s with
    | String z (String x (String c s')) =>
        if Ascii.eqb z "0"%char && Ascii.eqb (lower x) "x"%char
        then (true, String c s') else (false, s)
    | _ => (false, s)
    end in
  let '(st, s) := mant_loop hex (MantState false false false 0 0 0) s in
  if negb (sawdigits st) then None else
  let dp0 := if sawdot st then dp st else nd st in
  let dp1 := if hex then dp0 * 4 else dp0 in
  let nd1 := if hex then nd st * 4 else nd st in
  let expChar := if hex then "p"%char else "e"%char in
  let exp_part :=
    match s with
    | String c s' =>
        if Ascii.eqb (lower c) expChar then
          let '(esign, s'') :=
            match s' with
            | String c' s'' =>
                if Ascii.eqb c' "+"%char then (1, s'')
                else if Ascii.eqb c' "-"%char then (-1, s'')
                else (1, s')
            | EmptyString => (1, s')
            end in
          match s'' with
          | String d _ =>
              if is_digit d then
                let '(e, us, rest) := exp_loop 0 (underscores st) s'' in
                Some (Some (dp1 + e * esign, us, rest))
              else Some None
          | EmptyString => Some None
          end
        else None
    | EmptyString => None
    end in
  let res :=
    match exp_part with
    | Some (Some r) => Some r
    | Some None => None
    | None => if hex then None else Some (dp1, underscores st, s)
    end in
  match res with
  | None => None
  | Some (dp2, us, rest) =>
      let consumed := substring 0 (String.length s0 - String.length rest) s0 in
      if us && negb (underscoreOK consumed) then None
      else Some (neg, hex, mant st, dp2 - nd1, rest)
  end.

(** [ParseFloat]: [None] is a non-nil error (syntax error, trailing
    bytes, or [ErrRange] on overflow to an infinity). *)
Definition ParseFloat (s : string) : option float64 :=
  match special s with
  | Some (f, n) => if (n =? String.length s)%nat then Some f else None
  | None =>
      match readFloat s with
      | None => None
      | Some (neg, hex, m, k, rest) =>
          match rest with
          | EmptyString =>
              let f := if hex then round_binary neg m k else round_decimal neg m k in
              if is_inf f then None else Some f
          | _ => None
          end
      end
  end.

(** ** [%f] of [fmt] on a [float64]

    [strconv.FormatFloat(f, 'f', 6, 64)] rounds the exact decimal
    expansion to 6 fractional digits, ties to even; [fmt] prints the sign
    of negative numbers (also of -0), "+Inf", "-Inf" and "NaN". *)
Definition pad6 (s : string) : string :=
  (substring 0 (6 - String.length s) "000000" ++ s)%string.

Definition round_half_even_div (num den : Z) : Z :=
  let q := num / den in
  let r := num mod den in
  if (den <? 2 * r) || (2 * r =? den) && Z.odd q then q + 1 else q.

Definition fmt_f (f : float64) : string :=
  let fixed (s : bool) (n : Z) :=
    ((if s then "-" else "") ++ fmt_d (n / 10 ^ 6) ++ "." ++ pad6 (fmt_d (n mod 10 ^ 6)))%string in
  match f with
  | S754_nan => "NaN"
  | S754_infinity false => "+Inf"
  | S754_infinity true => "-Inf"
  | S754_zero s => fixed s 0
  | S754_finite s m e =>
      if 0 <=? e then fixed s (Z.pos m * 2 ^ e * 10 ^ 6)
      else fixed s (round_half_even_div (Z.pos m * 10 ^ 6) (2 ^ (- e)))
  end.

(** ** [parseFormFloat] *)
Definition parseFormFloat (field : string) (min max : float64) : float64 + string :=
  let valStr := field in
  match ParseFloat valStr with
  | None => inr ("invalid float: " ++ valStr)%string
  | Some val =>
      if flt val min || flt max val then
        inr ("value out of range: " ++ fmt_f val ++ " (expected between "
             ++ fmt_f min ++ " and " ++ fmt_f max ++ ")")%string
      else inl val
  end.

(** The constants [0.0] and [10.0] of [generate]. *)
Definition f0 : float64 := float_of_Z 0.
Definition f10 : float64 := float_of_Z 10.

(** ** [math.Round]

    Go documents [Round] as returning the nearest integer, rounding half
    away from zero, and leaving +-0, +-Inf and NaN unchanged.  A finite
    [m * 2^e] with [e < 0] has integer part [m / 2^-e] and fractional part
    [(m mod 2^-e) / 2^-e]; the result keeps the sign of the argument. *)
Definition round_half_away (m d : Z) : Z :=
  let q := m / d in
  let r := m mod d in
  if d <=? 2 * r then q + 1 else q.

Definition Round (x : float64) : float64 :=
  match x with
  | S754_finite s m e =>
      if 0 <=? e then x
      else
        let d := 2 ^ (- e) in
        let n := round_half_away (Z.pos m) d in
        if n =? 0 then S754_zero s
        else binary_normalize prec emax (if s then - n else n) 0 s
  | _ => x
  end.

(** ** [math.Pow] on an integral exponent

    The path [math.Pow(x, y)] takes for a finite [x] other than 0 and 1
    and an integral [y] other than 0 and 1: [x] is split by [Frexp] into a
    fraction in [0.5, 1) and a power of two, and [x ^ |y|] is accumulated
    by repeated squaring on the bits of [|y|] as [a1 * 2 ^ ae]; a negative
    [y] inverts the result, and [Ldexp] assembles it. *)
Definition fhalf : float64 := binary_normalize prec emax 1 (-1) false.
Definition fone : float64 := binary_normalize prec emax 1 0 false.

Fixpoint pow_loop (fuel : nat) (i : Z) (a1 : float64) (ae : Z) (x1 : float64) (xe : Z)
  : float64 * Z :=
  match fuel with
  | O => (a1, ae)
  | S fuel' =>
      if i =? 0 then (a1, ae)
      else if (xe <? - 2 ^ 12) || (2 ^ 12 <? xe) then (a1, ae + xe)
      else
        let '(a1, ae) := if Z.odd i then (fmul a1 x1, ae + xe) else (a1, ae) in
        let x1 := fmul x1 x1 in
        let xe := Z.shiftl xe 1 in
        let '(x1, xe) := if flt x1 fhalf then (fadd x1 x1, xe - 1) else (x1, xe) in
        pow_loop fuel' (Z.shiftr i 1) a1 ae x1 xe
  end.

Definition Pow_int (x : float64) (y : Z) : float64 :=
  if y =? 0 then fone
  else if y =? 1 then x
  else
    let '(x1, xe) := SFfrexp prec emax x in
    let '(a1, ae) := pow_loop 64 (Z.abs y) fone 0 x1 xe in
    let '(a1, ae) := if y <? 0 then (fdiv fone a1, - ae) else (a1, ae) in
    SFldexp prec emax a1 ae.

(** [roundFloat]: [math.Pow(10, float64(precision))], exact for the
    precisions of interest ([|precision| <= 2^53]). *)
Definition roundFloat (val : float64) (precision : Z) : float64 :=
  let ratio := Pow_int (float_of_Z 10) precision in
  fdiv (Round (fmul val ratio)) ratio.

(** ** [time.Duration.Seconds]: a duration is an int64 count of
    nanoseconds; Go's [/] and [%] truncate toward zero. *)
Definition Second : Z := 1000000000.

Definition Seconds (d : Z) : float64 :=
  let sec := Z.quot d Second in
  let nsec := Z.rem d Second in
  fadd (float_of_Z sec) (fdiv (float_of_Z nsec) (float_of_Z 1000000000)).

(** ** Go values of static type [any] and [map[string]any]

    A Go map is an association list in which [map_set] replaces the
    binding of an existing key and appends a new one; [map_index] is
    [m[k]], the zero value [nil] for a missing key (also on a nil map, the
    empty list). *)
Inductive any : Type :=
  | ANil
  | ABool (b : bool)
  | AInt (n : Z)
  | AFloat (f : float64)
  | AString (s : string)
  | ASlice (l : list any)
  | AMap (m : list (string * any)).

Fixpoint map_set {A} (k : string) (v : A) (m : list (string * A)) : list (string * A) :=
  match m with
  | [] => [(k, v)]
  | (k', v') :: m' => if String.eqb k k' then (k, v) :: m' else (k', v') :: map_set k v m'
  end.

Definition map_get {A} (k : string) (m : list (string * A)) : option A :=
  match find (fun kv => String.eqb k (fst kv)) m with
  | Some (_, v) => Some v
  | None => None
  end.

Definition map_index (m : list (string * any)) (k : string) : any :=
  match map_get k m with Some v => v | None => ANil end.

(** ** UTF-8, as [unicode/utf8] decodes and encodes it *)

Definition in_range (lo hi : Z) (c : ascii) : bool := (lo <=? byte_val c) && (byte_val c <=? hi).

(** Width of the valid UTF-8 sequence at the start of [s] (first byte at
    least 0x80), or 0 when [DecodeRune] returns [(RuneError, 1)]. *)
Definition utf8_width (s : string) : nat :=
  let cont := in_range 128 191 in
  match s with
  | String b0 (String b1 rest) =>
      if in_range 194 223 b0 then (if cont b1 then 2 else 0)
      else if in_range 224 239 b0 then
        let ok1 := if byte_val b0 =? 224 then in_range 160 191 b1
                   else if byte_val b0 =? 237 then in_range 128 159 b1 else cont b1 in
        match rest with
        | String b2 _ => if ok1 && cont b2 then 3 else 0
        | EmptyString => 0
        end
      else if in_range 240 244 b0 then
        let ok1 := if byte_val b0 =? 240 then in_range 144 191 b1
                   else if byte_val b0 =? 244 then in_range 128 143 b1 else cont b1 in
        match rest with
        | String b2 (String b3 _) => if ok1 && cont b2 && cont b3 then 4 else 0
        | _ => 0
        end
      else 0
  | _ => 0%nat
  end.

(** [utf8.EncodeRune]; surrogate halves and out-of-range values are
    written as U+FFFD. *)
Definition RuneError : Z := 65533.

Definition EncodeRune (r : Z) : string :=
  let r := if (r <? 0) || (1114111 <? r) || (55296 <=? r) && (r <=? 57343) then RuneError else r in
  let b := ascii_of_Z in
  if r <? 128 then String (b r) EmptyString
  else if r <? 2048 then
    String (b (192 + r / 64)) (String (b (128 + r mod 64)) EmptyString)
  else if r <? 65536 then
    String (b (224 + r / 4096)) (String (b (128 + (r / 64) mod 64))
      (String (b (128 + r mod 64)) EmptyString))
  else
    String (b (240 + r / 262144)) (String (b (128 + (r / 4096) mod 64))
      (String (b (128 + (r / 64) mod 64)) (String (b (128 + r mod 64)) EmptyString))).

(** ** [encoding/json] decoding *)

Definition hex_val (c : ascii) : option Z :=
  if is_digit c then Some (digit_val c)
  else if in_range 97 102 (lower c) then Some (byte_val (lower c) - 87)
  else None.

(** [getu4]: the code unit of a leading "\uXXXX", or -1. *)
Definition getu4 (s : string) : Z :=
  match s with
  | String bs (String u (String h1 (String h2 (String h3 (String h4 _))))) =>
      if Ascii.eqb bs "\"%char && Ascii.eqb u "u"%char then
        match hex_val h1, hex_val h2, hex_val h3, hex_val h4 with
        | Some a, Some b, Some c, Some d => ((a * 16 + b) * 16 + c) * 16 + d
        | _, _, _, _ => -1
        end
      else -1
  | _ => -1
  end.

Definition is_ws (c : ascii) : bool :=
  Ascii.eqb c " "%char || (byte_val c =? 9) || (byte_val c =? 10) || (byte_val c =? 13).

Fixpoint skip_ws (s : string) : string :=
  match s with
  | String c s' => if is_ws c then skip_ws s' else s
  | EmptyString => s
  end.

Definition dquote : ascii := ascii_of_Z 34.

(** The body of a JSON string after its opening quote, scanned and
    unquoted: escapes decoded (a valid surrogate pair to its rune, a lone
    surrogate to U+FFFD), invalid UTF-8 bytes replaced by U+FFFD, control
    bytes rejected; returns the Go string and the input after the closing
    quote.  [fuel] bounds the number of bytes. *)
Fixpoint unquote (fuel : nat) (s : string) : option (string * string) :=
  match fuel with
  | O => None
  | S fuel' =>
      match s with
      | EmptyString => None
      | String c rest =>
          if Ascii.eqb c dquote then Some (EmptyString, rest)
          else if byte_val c <? 32 then None
          else if Ascii.eqb c "\"%char then
            match rest with
            | EmptyString => None
            | String e rest' =>
                let simple (out : ascii) :=
                  match unquote fuel' rest' with
                  | Some (v, r) => Some (String out v, r)
                  | None => None
                  end in
                if Ascii.eqb e dquote || Ascii.eqb e "\"%char || Ascii.eqb e "/"%char
                then simple e
                else if Ascii.eqb e "b"%char then simple (ascii_of_Z 8)
                else if Ascii.eqb e "f"%char then simple (ascii_of_Z 12)
                else if Ascii.eqb e "n"%char then simple (ascii_of_Z 10)
                else if Ascii.eqb e "r"%char then simple (ascii_of_Z 13)
                else if Ascii.eqb e "t"%char then simple (ascii_of_Z 9)
                else if Ascii.eqb e "u"%char then
                  let rr := getu4 s in
                  if rr <? 0 then None else
                  let after := substring 6 (String.length s - 6) s in
                  let '(out, after) :=
                    if (55296 <=? rr) && (rr <? 57344) then
                      let rr1 := getu4 after in
                      if (rr <? 56320) && (56320 <=? rr1) && (rr1 <? 57344) then
                        (EncodeRune (65536 + (rr - 55296) * 1024 + (rr1 - 56320)),
                         substring 6 (String.length after - 6) after)
                      else (EncodeRune RuneError, after)
                    else (EncodeRune rr, after) in
                  match unquote fuel' after with
                  | Some (v, r) => Some (out ++ v, r)%string
                  | None => None
                  end
                else None
            end
          else if byte_val c <? 128 then
            match unquote fuel' rest with
            | Some (v, r) => Some (String c v, r)
            | None => None
            end
          else
            let w := utf8_width s in
            let '(out, after) :=
              if (w =? 0)%nat then (EncodeRune RuneError, rest)
              else (substring 0 w s, substring w (String.length s - w) s) in
            match unquote fuel' after with
            | Some (v, r) => Some (out ++ v, r)%string
            | None => None
            end
      end
  end.

Fixpoint span_digits (s : string) : nat :=
  match s with
  | String c s' => if is_digit c then S (span_digits s') else O
  | EmptyString => O
  end.

Definition drop (n : nat) (s : string) : string := substring n (String.length s - n) s.

Definition starts_with (c : ascii) (s : string) : bool :=
  match s with String c' _ => Ascii.eqb c c' | EmptyString => false end.

(** Length of the JSON number literal at the start of [s]:
    [-?(0|[1-9][0-9]* )(\.[0-9]+)?([eE][+-]?[0-9]+)?]. *)
Definition scan_number (s : string) : option nat :=
  let nsign := if starts_with "-"%char s then 1%nat else 0%nat in
  let s1 := drop nsign s in
  let nint := if starts_with "0"%char s1 then 1%nat else span_digits s1 in
  if (nint =? 0)%nat then None else
  let s2 := drop nint s1 in
  let nfrac := if starts_with "."%char s2 then S (span_digits (drop 1 s2)) else O in
  if (nfrac =? 1)%nat then None else
  let s3 := drop nfrac s2 in
  let nexp :=
    if starts_with "e"%char s3 || starts_with "E"%char s3 then
      let s4 := drop 1 s3 in
      let ns := if starts_with "+"%char s4 || starts_with "-"%char s4 then 1%nat else 0%nat in
      let nd := span_digits (drop ns s4) in
      if (nd =? 0)%nat then None else Some (1 + ns + nd)%nat
    else Some O in
  match nexp with
  | Some ne => Some (nsign + nint + nfrac + ne)%nat
  | None => None
  end.

(** The scanner's nesting limit ([maxNestingDepth]). *)
Definition maxNestingDepth : Z := 10000.

(** Decoding of one JSON value into [any] ([valueInterface]): objects to
    [map[string]any] (a repeated key keeps its last value), arrays to
    [[]any], numbers to [float64] through [strconv.ParseFloat] (an
    out-of-range number is an error), strings unquoted.  [None] is a
    syntax error or a decoding error.  [depth] counts the open arrays and
    objects; [fuel] bounds the recursion. *)
Fixpoint decode_value (fuel : nat) (depth : Z) (s : string) : option (any * string) :=
  match fuel with
  | O => None
  | S fuel' =>
      let s := skip_ws s in
      match s with
      | EmptyString => None
      | String c rest =>
          if Ascii.eqb c "{"%char then
            if maxNestingDepth <? depth + 1 then None else
            let rest := skip_ws rest in
            if starts_with "}"%char rest then Some (AMap [], drop 1 rest)
            else decode_members fuel' (depth + 1) [] rest
          else if Ascii.eqb c "["%char then
            if maxNestingDepth <? depth + 1 then None else
            let rest := skip_ws rest in
            if starts_with "]"%char rest then Some (ASlice [], drop 1 rest)
            else decode_elems fuel' (depth + 1) [] rest
          else if Ascii.eqb c dquote then
            match unquote (String.length rest) rest with
            | Some (v, r) => Some (AString v, r)
            | None => None
            end
          else if String.prefix "true" s then Some (ABool true, drop 4 s)
          else if String.prefix "false" s then Some (ABool false, drop 5 s)
          else if String.prefix "null" s then Some (ANil, drop 4 s)
          else
            match scan_number s with
            | Some n =>
                match ParseFloat (substring 0 n s) with
                | Some f => Some (AFloat f, drop n s)
                | None => None
                end
            | None => None
            end
      end
  end
with decode_members (fuel : nat) (depth : Z) (acc : list (string * any)) (s : string)
  : option (any * string) :=
  match fuel with
  | O => None
  | S fuel' =>
      match s with
      | String q rest =>
          if Ascii.eqb q dquote then
            match unquote (String.length rest) rest with
            | Some (key, r) =>
                let r := skip_ws r in
                if starts_with ":"%char r then
                  match decode_value fuel' depth (drop 1 r) with
                  | Some (v, r') =>
                      let acc := map_set key v acc in
                      let r' := skip_ws r' in
                      if starts_with ","%char r' then decode_members fuel' depth acc (skip_ws (drop 1 r'))
                      else if starts_with "}"%char r' then Some (AMap acc, drop 1 r')
                      else None
                  | None => None
                  end
                else None
            | None => None
            end
          else None
      | EmptyString => None
      end
  end
with decode_elems (fuel : nat) (depth : Z) (acc : list any) (s : string)
  : option (any * string) :=
  match fuel with
  | O => None
  | S fuel' =>
      match decode_value fuel' depth s with
      | Some (v, r) =>
          let acc := acc ++ [v] in
          let r := skip_ws r in
          if starts_with ","%char r then decode_elems fuel' depth acc (drop 1 r)
          else if starts_with "]"%char r then Some (ASlice acc, drop 1 r)
          else None
      | None => None
      end
  end.

(** [json.Unmarshal(body, &result)] with [result] a nil
    [map[string]any]: the whole input must be one JSON value (surrounded
    by white space only); [null] leaves the map nil, an object fills it,
    any other value is an [UnmarshalTypeError]. *)
Definition Unmarshal (data : string) : option (list (string * any)) :=
  match decode_value (2 * String.length data + 2) 0 data with
  | Some (v, rest) =>
      match skip_ws rest with
      | EmptyString =>
          match v with
          | ANil => Some []
          | AMap m => Some m
          | _ => None
          end
      | _ => None
      end
  | None => None
  end.

(** ** [encoding/json] encoding

    [json.Marshal] is modelled by the JSON document its output spells: the
    number nodes keep the Go value they encode (an [int] in decimal, a
    finite [float64] in the shortest form that parses back to it), string
    nodes the text they encode (invalid UTF-8 bytes are written as
    U+FFFD), and object members appear in the byte order of their keys,
    as [Marshal] sorts map keys.  A NaN or infinite [float64] is an
    [UnsupportedValueError]. *)
Inductive json : Type :=
  | JNull
  | JBool (b : bool)
  | JInt (n : Z)
  | JFloat (f : float64)
  | JString (s : string)
  | JArray (l : list json)
  | JObject (m : list (string * json)).

Fixpoint coerce_utf8 (fuel : nat) (s : string) : string :=
  match fuel with
  | O => s
  | S fuel' =>
      match s with
      | EmptyString => s
      | String c rest =>
          if byte_val c <? 128 then String c (coerce_utf8 fuel' rest)
          else
            let w := utf8_width s in
            if (w =? 0)%nat then (EncodeRune RuneError ++ coerce_utf8 fuel' rest)%string
            else (substring 0 w s ++ coerce_utf8 fuel' (drop w s))%string
      end
  end.

Definition sanitize (s : string) : string := coerce_utf8 (String.length s) s.

Fixpoint insert_by_key {A} (kv : string * A) (l : list (string * A)) : list (string * A) :=
  match l with
  | [] => [kv]
  | kv' :: l' => if String.ltb (fst kv') (fst kv) then kv' :: insert_by_key kv l' else kv :: l
  end.

Definition sort_by_key {A} (l : list (string * A)) : list (string * A) :=
  fold_right insert_by_key [] l.

Fixpoint Marshal (v : any) : option json :=
  match v with
  | ANil => Some JNull
  | ABool b => Some (JBool b)
  | AInt n => Some (JInt n)
  | AFloat f =>
      match f with
      | S754_nan | S754_infinity _ => None
      | _ => Some (JFloat f)
      end
  | AString s => Some (JString (sanitize s))
  | ASlice l =>
      let fix elems (l : list any) : option (list json) :=
        match l with
        | [] => Some []
        | x :: l' =>
            match Marshal x, elems l' with
            | Some j, Some js => Some (j :: js)
            | _, _ => None
            end
        end in
      match elems l with Some js => Some (JArray js) | None => None end
  | AMap m =>
      let fix members (m : list (string * any)) : option (list (string * json)) :=
        match m with
        | [] => Some []
        | (k, x) :: m' =>
            match Marshal x, members m' with
            | Some j, Some js => Some ((k, j) :: js)
            | _, _ => None
            end
        end in
      match members m with
      | Some js => Some (JObject (map (fun kj => (sanitize (fst kj), snd kj)) (sort_by_key js)))
      | None => None
      end
  end.

(** ** The server and the handler's effects *)

Record Server := MkServer { Host : string; Port : Z; Backend : string }.

(** [server.New]. *)
Definition New (host : string) (port : Z) (backend : string) : Server :=
  MkServer host port backend.

(** The parsed form of the request: [c.FormValue(name)] is the first value
    of [name], or "" when the field is absent. *)
Definition Form := list (string * string).

Definition FormValue (form : Form) (name : string) : string :=
  match map_get name form with Some v => v | None => EmptyString end.

(** Outcome of [http.Post]: a transport error, or a response (any status
    code: [http.Post] does not fail on one) whose body [io.ReadAll] reads
    in full ([Some]) or fails on ([None]). *)
Inductive PostResult :=
  | NetError
  | Reply (status : Z) (body : option string).

(** The outside world of one request: the backend's answer to a POST of
    a content type and document to a URL, and the duration (nanoseconds)
    [time.Since(start)] measures. *)
Record Env := MkEnv {
  backend_reply : string -> string -> json -> PostResult;
  elapsed : Z }.

(** The observable effects of the handler, in order: a plain-text response
    written by [c.String], a template response written by [c.Render], an
    outbound [http.Post], and the closing of its response body. *)
Inductive Event :=
  | Respond (status : Z) (body : string)
  | Rendered (status : Z) (name : string) (data : list (string * any))
  | Post (url : string) (contentType : string) (body : json)
  | CloseBody.

(** The handler monad: the events emitted so far are threaded through;
    [None] is a handler that has executed [return]. *)
Definition M (A : Type) := list Event -> list Event * option A.

Definition ret {A} (a : A) : M A := fun t => (t, Some a).

Definition bind {A B} (m : M A) (f : A -> M B) : M B :=
  fun t => match m t with
           | (t', Some a) => f a t'
           | (t', None) => (t', None)
           end.

Notation "x <- m ;; k" := (bind m (fun x => k)) (at level 61, m at next level, right associativity).
Notation "m ;;; k" := (bind m (fun _ => k)) (at level 61, right associativity).

Definition emit (e : Event) : M unit := fun t => (t ++ [e], Some tt).

(** [return] out of the handler. *)
Definition exit {A} : M A := fun t => (t, None).

(** [defer]: [e] is emitted when the handler returns, on every path. *)
Definition deferred (e : Event) (m : M unit) : M unit :=
  fun t => let '(t', _) := m t in (t' ++ [e], None).

Definition c_String (code : Z) (s : string) : M unit := emit (Respond code s).

(** Modelled from the spec: [c.Render(code, "result.html", data)] renders
    the fragment view, a template of the repository that is not among the
    sources given here; the spec names the fragment view as the
    rendering of the [image] / generation time pair, and rendering is taken
    to succeed and to write the fragment with status [code]. *)
Definition c_Render (code : Z) (name : string) (data : list (string * any)) : M unit :=
  emit (Rendered code name data).

Definition http_Post (env : Env) (url contentType : string) (body : json) : M PostResult :=
  emit (Post url contentType body) ;;; ret (backend_reply env url contentType body).

Definition StatusOK : Z := 200.
Definition StatusBadRequest : Z := 400.
Definition StatusInternalServerError : Z := 500.

Definition backend_url : string := "http://localhost:8000/v1/images/generations".

(** [generate], the handler method of [*Server]. *)
Definition generate (s : Server) (form : Form) (env : Env) : M unit :=
  let prompt := FormValue form "prompt" in
  let widthStr := FormValue form "width" in
  let heightStr := FormValue form "height" in
  let numStepsStr := FormValue form "num_steps" in
  let guidanceScaleStr := FormValue form "guidance_scale" in
  let seedStr := FormValue form "seed" in
  if String.eqb prompt "" then c_String StatusBadRequest "Prompt is required" ;;; exit else
  match parseFormInt widthStr 64 1024 with
  | inr err => c_String StatusBadRequest ("Width is invalid: " ++ err) ;;; exit
  | inl width =>
  match parseFormInt heightStr 64 1024 with
  | inr err => c_String StatusBadRequest ("Height is invalid: " ++ err) ;;; exit
  | inl height =>
  match parseFormInt numStepsStr 1 10 with
  | inr err => c_String StatusBadRequest ("Number of steps is invalid: " ++ err) ;;; exit
  | inl numSteps =>
  match parseFormFloat guidanceScaleStr f0 f10 with
  | inr err => c_String StatusBadRequest ("Guidance scale is invalid: " ++ err) ;;; exit
  | inl guidanceScale =>
  let payload :=
    map_set "guidance" (AFloat guidanceScale)
      (map_set "steps" (AInt numSteps)
        (map_set "height" (AInt height)
          (map_set "width" (AInt width)
            (map_set "prompt" (AString prompt) [])))) in
  payload <-
    (if negb (String.eqb seedStr "") then
       let '(seed, err) :=
         match parseFormInt seedStr MinInt MaxInt with
         | inl v => (v, None)
         | inr e => (0, Some e)
         end in
       (match err with
        | Some e => c_String StatusBadRequest ("Seed is invalid: " ++ e)
        | None => ret tt
        end) ;;;
       ret (map_set "seed" (AInt seed) payload)
     else ret payload) ;;
  match Marshal (AMap payload) with
  | None => c_String StatusInternalServerError "Failed to encode JSON" ;;; exit
  | Some jsonData =>
  resp <- http_Post env backend_url "application/json" jsonData ;;
  match resp with
  | NetError => c_String StatusInternalServerError "Failed to call Flue server" ;;; exit
  | Reply _ read =>
  deferred CloseBody
    (match read with
     | None => c_String StatusInternalServerError "Failed to read response from Flue server" ;;; exit
     | Some body =>
     match Unmarshal body with
     | None => c_String StatusInternalServerError "Failed to parse JSON response" ;;; exit
     | Some result =>
     let genTime := Seconds (elapsed env) in
     let data := map_set "gen_time" (AFloat (roundFloat genTime 2))
                   (map_set "image" (map_index result "image") []) in
     c_Render StatusOK "result.html" data ;;; exit
     end
     end)
  end
  end
  end
  end
  end
  end.

(** The events of one run of the handler. *)
Definition run (s : Server) (form : Form) (env : Env) : list Event :=
  fst (generate s form env []).

(** The responses written, in order. *)
Definition is_response (e : Event) : bool :=
  match e with Respond _ _ | Rendered _ _ _ => true | _ => false end.

Definition is_post (e : Event) : bool :=
  match e with Post _ _ _ => true | _ => false end.

Definition responses (t : list Event) : list Event := filter is_response t.
Definition posts (t : list Event) : list Event := filter is_post t.

Definition status_of (e : Event) : Z :=
  match e with Respond c _ | Rendered c _ _ => c | _ => 0 end.

(** ** Properties of the handler *)

(** The document of the outbound payload for validated fields. *)
Definition payload_doc (prompt : string) (w h n : Z) (g : float64) (sd : option Z)
  : list (string * json) :=
  [("guidance"%string, JFloat g); ("height"%string, JInt h);
   ("prompt"%string, JString (sanitize prompt))]
  ++ match sd with Some v => [("seed"%string, JInt v)] | None => [] end
  ++ [("steps"%string, JInt n); ("width"%string, JInt w)].

(** The seed field is absent or empty ([None]) or parses ([Some v]). *)
Definition seed_field (form : Form) (sd : option Z) : Prop :=
  match sd with
  | None => FormValue form "seed" = EmptyString
  | Some v => parseFormInt (FormValue form "seed") MinInt MaxInt = inl v
  end.

Ltac unfold_monad :=
  cbv beta iota zeta delta [run generate bind ret emit exit c_String c_Render http_Post deferred fst].


Ltac split_run :=
  repeat (cbn beta iota zeta;
    match goal with
    | |- context [match ?x with _ => _ end] =>
        lazymatch x with
        | context [match _ with _ => _ end] => fail
        | _ => destruct x eqn:?
        end
    end).

Ltac close_run_goals :=
  simpl; intros e H;
  repeat (destruct H as [H|H]; [subst e; simpl; discriminate|]); contradiction.

(** *** The handler after validation

    What the seed field yields: absent or empty, parsed, or invalid (the
    handler then writes a 400 and goes on with seed 0). *)
Inductive seed_outcome := NoSeed | GoodSeed (v : Z) | BadSeed (err : string).

Definition seed_state (form : Form) (so : seed_outcome) : Prop :=
  match so with
  | NoSeed => FormValue form "seed" = EmptyString
  | GoodSeed v => parseFormInt (FormValue form "seed") MinInt MaxInt = inl v
  | BadSeed err => FormValue form "seed" <> EmptyString /\
                   parseFormInt (FormValue form "seed") MinInt MaxInt = inr err
  end.

Definition seed_prefix (so : seed_outcome) : list Event :=
  match so with
  | BadSeed err => [Respond 400 ("Seed is invalid: " ++ err)]
  | _ => []
  end.

Definition seed_value (so : seed_outcome) : option Z :=
  match so with NoSeed => None | GoodSeed v => Some v | BadSeed _ => Some 0 end.

Definition result_data (env : Env) (result : list (string * any)) : list (string * any) :=
  [("image"%string, map_index result "image"); ("gen_time"%string, AFloat (roundFloat (Seconds (elapsed env)) 2))].

(** The events after the outbound call of [doc]. *)
Definition after_post (env : Env) (doc : list (string * json)) : list Event :=
  match backend_reply env backend_url "application/json" (JObject doc) with
  | NetError => [Respond 500 "Failed to call Flue server"]
  | Reply _ None => [Respond 500 "Failed to read response from Flue server"; CloseBody]
  | Reply _ (Some body) =>
      match Unmarshal body with
      | None => [Respond 500 "Failed to parse JSON response"; CloseBody]
      | Some result => [Rendered 200 "result.html" (result_data env result); CloseBody]
      end
  end.

Definition after_validation (env : Env) (doc : list (string * json)) (g : float64) : list Event :=
  match g with
  | S754_nan | S754_infinity _ => [Respond 500 "Failed to encode JSON"]
  | _ => Post backend_url "application/json" (JObject doc) :: after_post env doc
  end.

Definition is_nan (f : float64) : bool := match f with S754_nan => true | _ => false end.

(** Sample requests and backends. *)
Definition sample_form (guidance seed : string) : Form :=
  [("prompt", "cat"); ("width", "512"); ("height", "384"); ("num_steps", "4");
   ("guidance_scale", guidance); ("seed", seed)]%string.

Definition const_env (r : PostResult) (d : Z) : Env := MkEnv (fun _ _ _ => r) d.

Definition image_body : string :=
  ("{" ++ String dquote "image" ++ String dquote ":" ++ String dquote "data:image/png;base64,AAAA"
   ++ String dquote "}")%string.

Definition env_ok : Env := const_env (Reply 200 (Some image_body)) 42000000.

Definition sample_server : Server := New "localhost" 8080 "http://gpu-box:9000".

(** ** Auxiliary predicates for the properties below *)

(** Every byte of [s] is a decimal digit. *)
Fixpoint all_digits (s : string) : bool :=
  match s with
  | EmptyString => true
  | String c s' => is_digit c && all_digits s'
  end.

(** Every byte of [s] is below 0x80 (7-bit ASCII). *)
Fixpoint ascii7 (s : string) : bool :=
  match s with
  | EmptyString => true
  | String c s' => (byte_val c <? 128) && ascii7 s'
  end.

(** A value [json.Marshal] refuses: it holds a NaN or an infinite float. *)
Fixpoint unsupported (v : any) : bool :=
  match v with
  | AFloat f => is_nan f || is_inf f
  | ASlice l => existsb unsupported l
  | AMap m => existsb (fun kv => unsupported (snd kv)) m
  | _ => false
  end.

(** Byte-wise order of the keys of two object members. *)
Definition key_le {A} (a b : string * A) : Prop := String.leb (fst a) (fst b) = true.

(** Induction on [any] that reaches the elements of slices and maps. *)
Section AnyInd.
Variable P : any -> Prop.
Hypothesis HNil : P ANil.
Hypothesis HBool : forall b, P (ABool b).
Hypothesis HInt : forall n, P (AInt n).
Hypothesis HFloat : forall f, P (AFloat f).
Hypothesis HString : forall s, P (AString s).
Hypothesis HSlice : forall l, Forall P l -> P (ASlice l).
Hypothesis HMap : forall m, Forall (fun kv => P (snd kv)) m -> P (AMap m).

Fixpoint any_ind' (v : any) : P v :=
  match v with
  | ANil => HNil
  | ABool b => HBool b
  | AInt n => HInt n
  | AFloat f => HFloat f
  | AString s => HString s
  | ASlice l =>
      HSlice l ((fix go (l : list any) : Forall P l :=
                   match l with
                   | [] => Forall_nil _
                   | x :: l' => Forall_cons _ (any_ind' x) (go l')
                   end) l)
  | AMap m =>
      HMap m ((fix go (m : list (string * any)) : Forall (fun kv => P (snd kv)) m :=
                 match m with
                 | [] => Forall_nil _
                 | kv :: m' => Forall_cons _ (any_ind' (snd kv)) (go m')
                 end) m)
  end.
End AnyInd.

(** The events that follow the first backend call of a trace. *)
Fixpoint events_after_post (t : list Event) : list Event :=
  match t with
  | [] => []
  | e :: t' => if is_post e then t' else events_after_post t'
  end.

(** Case split on a hypothesis [In x [a; b; ...]]. *)
Ltac in_list H :=
  repeat match type of H with
         | In _ _ => simpl in H
         | False => contradiction
         | _ \/ _ => destruct H as [H|H]
         end.

Lemma parseFormInt_empty : forall lo hi, exists e, parseFormInt EmptyString lo hi = inr e.
Proof. intros; eexists; reflexivity. Qed.

Lemma parseFormInt_nonempty : forall s lo hi v, parseFormInt s lo hi = inl v -> String.eqb s "" = false.
Proof. intros [|c s] lo hi v H; [discriminate | reflexivity]. Qed.

Lemma posts_app : forall t1 t2, posts (t1 ++ t2) = posts t1 ++ posts t2.
Proof. intros; apply filter_app. Qed.

Lemma posts_cons : forall e t, posts (e :: t) = if is_post e then e :: posts t else posts t.
Proof. reflexivity. Qed.

Lemma responses_cons :
  forall e t, responses (e :: t) = if is_response e then e :: responses t else responses t.
Proof. reflexivity. Qed.

Lemma responses_app : forall t1 t2, responses (t1 ++ t2) = responses t1 ++ responses t2.
Proof. intros; apply filter_app. Qed.

(** C5: for a valid form, the single outbound payload has exactly the keys
    prompt, width, height, steps and guidance with the parsed values, and
    seed exactly when the seed field is non-empty, with its parsed value. *)
Theorem generate_payload :
  forall s form env w h n g sd,
    FormValue form "prompt" <> EmptyString ->
    parseFormInt (FormValue form "width") 64 1024 = inl w ->
    parseFormInt (FormValue form "height") 64 1024 = inl h ->
    parseFormInt (FormValue form "num_steps") 1 10 = inl n ->
    parseFormFloat (FormValue form "guidance_scale") f0 f10 = inl g ->
    seed_field form sd ->
    posts (run s form env) =
      match g with
      | S754_nan | S754_infinity _ => []
      | _ => [Post backend_url "application/json"
                (JObject (payload_doc (FormValue form "prompt") w h n g sd))]
      end.
Proof.
  intros s form env w h n g sd Hp Hw Hh Hn Hg Hs.
  unfold_monad.
  destruct (String.eqb_spec (FormValue form "prompt") "") as [E|_]; [contradiction|].
  rewrite Hw, Hh, Hn, Hg.
  destruct sd as [v|]; simpl in Hs.
  - rewrite (parseFormInt_nonempty _ _ _ _ Hs), Hs. simpl.
    destruct g; simpl; try reflexivity.
    all: destruct (backend_reply env _ _ _) as [|st [body|]]; simpl; try reflexivity.
    all: destruct (Unmarshal body); reflexivity.
  - rewrite Hs. simpl.
    destruct g; simpl; try reflexivity.
    all: destruct (backend_reply env _ _ _) as [|st [body|]]; simpl; try reflexivity.
    all: destruct (Unmarshal body); reflexivity.
Qed.

Lemma generate_payload_witness :
  posts (run sample_server (sample_form "0.0" "42") env_ok) =
    match f0 with
    | S754_nan | S754_infinity _ => []
    | _ => [Post backend_url "application/json"
              (JObject (payload_doc (FormValue (sample_form "0.0" "42") "prompt") 512 384 4 f0 (Some 42)))]
    end.
Proof.
  apply (generate_payload sample_server (sample_form "0.0" "42") env_ok 512 384 4 f0 (Some 42));
    vm_compute; first [reflexivity | discriminate].
Defined.

(** C7: the fields are validated in the order prompt, width, height,
    num_steps, guidance_scale, seed.  When a field is the first invalid
    one, the handler's first (for the first five fields, only) response is
    the 400 naming that field, whatever the later fields hold. *)
Theorem generate_validation_order :
  forall s form env,
    (FormValue form "prompt" = EmptyString ->
       run s form env = [Respond 400 "Prompt is required"]) /\
    (forall err,
       FormValue form "prompt" <> EmptyString ->
       parseFormInt (FormValue form "width") 64 1024 = inr err ->
       run s form env = [Respond 400 ("Width is invalid: " ++ err)]) /\
    (forall w err,
       FormValue form "prompt" <> EmptyString ->
       parseFormInt (FormValue form "width") 64 1024 = inl w ->
       parseFormInt (FormValue form "height") 64 1024 = inr err ->
       run s form env = [Respond 400 ("Height is invalid: " ++ err)]) /\
    (forall w h err,
       FormValue form "prompt" <> EmptyString ->
       parseFormInt (FormValue form "width") 64 1024 = inl w ->
       parseFormInt (FormValue form "height") 64 1024 = inl h ->
       parseFormInt (FormValue form "num_steps") 1 10 = inr err ->
       run s form env = [Respond 400 ("Number of steps is invalid: " ++ err)]) /\
    (forall w h n err,
       FormValue form "prompt" <> EmptyString ->
       parseFormInt (FormValue form "width") 64 1024 = inl w ->
       parseFormInt (FormValue form "height") 64 1024 = inl h ->
       parseFormInt (FormValue form "num_steps") 1 10 = inl n ->
       parseFormFloat (FormValue form "guidance_scale") f0 f10 = inr err ->
       run s form env = [Respond 400 ("Guidance scale is invalid: " ++ err)]) /\
    (forall w h n g err,
       FormValue form "prompt" <> EmptyString ->
       parseFormInt (FormValue form "width") 64 1024 = inl w ->
       parseFormInt (FormValue form "height") 64 1024 = inl h ->
       parseFormInt (FormValue form "num_steps") 1 10 = inl n ->
       parseFormFloat (FormValue form "guidance_scale") f0 f10 = inl g ->
       FormValue form "seed" <> EmptyString ->
       parseFormInt (FormValue form "seed") MinInt MaxInt = inr err ->
       hd_error (responses (run s form env)) = Some (Respond 400 ("Seed is invalid: " ++ err))).
Proof.
  intros s form env.
  unfold_monad.
  destruct (String.eqb_spec (FormValue form "prompt") "") as [Ep|Ep].
  { repeat split; intros; try contradiction; reflexivity. }
  split; [intro; contradiction|].
  split; [intros err _ Hw; rewrite Hw; reflexivity|].
  split; [intros w err _ Hw Hh; rewrite Hw, Hh; reflexivity|].
  split; [intros w h err _ Hw Hh Hn; rewrite Hw, Hh, Hn; reflexivity|].
  split; [intros w h n err _ Hw Hh Hn Hg; rewrite Hw, Hh, Hn, Hg; reflexivity|].
  intros w h n g err _ Hw Hh Hn Hg Hs Hse.
  rewrite Hw, Hh, Hn, Hg.
  destruct (String.eqb_spec (FormValue form "seed") "") as [E|_]; [contradiction|].
  rewrite Hse. simpl.
  destruct g; simpl; try reflexivity.
  all: destruct (backend_reply env _ _ _) as [|st [body|]]; simpl; try reflexivity.
  all: destruct (Unmarshal body); reflexivity.
Qed.

Lemma generate_validation_order_witness :
  run sample_server [("prompt", "cat"); ("width", "2000"); ("height", "x")]%string env_ok
    = [Respond 400 ("Width is invalid: " ++ "value out of range: 2000 (expected between 64 and 1024)")].
Proof.
  apply (proj1 (proj2 (generate_validation_order sample_server
           [("prompt", "cat"); ("width", "2000"); ("height", "x")]%string env_ok))
           "value out of range: 2000 (expected between 64 and 1024)"%string);
    vm_compute; first [reflexivity | discriminate].
Defined.

Lemma run_validated :
  forall s form env w h n g so,
    FormValue form "prompt" <> EmptyString ->
    parseFormInt (FormValue form "width") 64 1024 = inl w ->
    parseFormInt (FormValue form "height") 64 1024 = inl h ->
    parseFormInt (FormValue form "num_steps") 1 10 = inl n ->
    parseFormFloat (FormValue form "guidance_scale") f0 f10 = inl g ->
    seed_state form so ->
    run s form env =
      seed_prefix so ++
      after_validation env (payload_doc (FormValue form "prompt") w h n g (seed_value so)) g.
Proof.
  intros s form env w h n g so Hp Hw Hh Hn Hg Hs.
  unfold_monad.
  destruct (String.eqb_spec (FormValue form "prompt") "") as [E|_]; [contradiction|].
  rewrite Hw, Hh, Hn, Hg.
  unfold after_validation, after_post, result_data.
  destruct so as [|v|err]; simpl in Hs.
  - rewrite Hs. simpl.
    destruct g; simpl; try reflexivity.
    all: destruct (backend_reply env _ _ _) as [|st [body|]]; simpl; try reflexivity.
    all: destruct (Unmarshal body); reflexivity.
  - rewrite (parseFormInt_nonempty _ _ _ _ Hs), Hs. simpl.
    destruct g; simpl; try reflexivity.
    all: destruct (backend_reply env _ _ _) as [|st [body|]]; simpl; try reflexivity.
    all: destruct (Unmarshal body); reflexivity.
  - destruct Hs as [Hne Hse].
    destruct (String.eqb_spec (FormValue form "seed") "") as [E|_]; [contradiction|].
    rewrite Hse. simpl.
    destruct g; simpl; try reflexivity.
    all: destruct (backend_reply env _ _ _) as [|st [body|]]; simpl; try reflexivity.
    all: destruct (Unmarshal body); reflexivity.
Qed.

Lemma parseFormFloat_not_inf :
  forall str g, parseFormFloat str f0 f10 = inl g -> is_inf g = false.
Proof.
  intros str g H. unfold parseFormFloat in H.
  destruct (ParseFloat str) as [v|]; [|discriminate].
  destruct (flt v f0 || flt f10 v) eqn:E; [discriminate|].
  injection H as <-.
  destruct v as [| [|] | |]; try reflexivity; vm_compute in E; discriminate E.
Qed.

Lemma after_post_one_response :
  forall env doc, List.length (responses (after_post env doc)) = 1%nat.
Proof.
  intros env doc. unfold after_post.
  destruct (backend_reply env _ _ _) as [|st [body|]]; try reflexivity.
  destruct (Unmarshal body); reflexivity.
Qed.

Lemma after_post_no_post : forall env doc, posts (after_post env doc) = [].
Proof.
  intros env doc. unfold after_post.
  destruct (backend_reply env _ _ _) as [|st [body|]]; try reflexivity.
  destruct (Unmarshal body); reflexivity.
Qed.

(** C1: a present but invalid seed is answered with a 400, yet the handler
    still sends the payload (with seed 0) to the backend: one outbound
    call, not zero. *)
Theorem generate_invalid_seed_posts :
  forall s form env w h n g err,
    FormValue form "prompt" <> EmptyString ->
    parseFormInt (FormValue form "width") 64 1024 = inl w ->
    parseFormInt (FormValue form "height") 64 1024 = inl h ->
    parseFormInt (FormValue form "num_steps") 1 10 = inl n ->
    parseFormFloat (FormValue form "guidance_scale") f0 f10 = inl g ->
    is_nan g = false ->
    FormValue form "seed" <> EmptyString ->
    parseFormInt (FormValue form "seed") MinInt MaxInt = inr err ->
    hd_error (responses (run s form env)) = Some (Respond 400 ("Seed is invalid: " ++ err)) /\
    posts (run s form env) =
      [Post backend_url "application/json"
         (JObject (payload_doc (FormValue form "prompt") w h n g (Some 0)))].
Proof.
  intros s form env w h n g err Hp Hw Hh Hn Hg Hnan Hs Hse.
  rewrite (run_validated s form env w h n g (BadSeed err)) by (simpl; auto).
  pose proof (parseFormFloat_not_inf _ _ Hg) as Hinf.
  unfold after_validation.
  destruct g; try discriminate; simpl app;
    rewrite !posts_cons, after_post_no_post; split; reflexivity.
Qed.

Lemma generate_invalid_seed_posts_witness :
  hd_error (responses (run sample_server (sample_form "0.0" "abc") env_ok))
    = Some (Respond 400 "Seed is invalid: invalid integer: abc") /\
  posts (run sample_server (sample_form "0.0" "abc") env_ok) =
    [Post backend_url "application/json"
       (JObject (payload_doc "cat" 512 384 4 f0 (Some 0)))].
Proof.
  apply (generate_invalid_seed_posts sample_server (sample_form "0.0" "abc") env_ok
           512 384 4 f0 "invalid integer: abc");
    vm_compute; first [reflexivity | discriminate].
Defined.

(** C3: on the same requests the handler writes two responses, the 400
    for the seed and then the outcome of the backend call. *)
Theorem generate_invalid_seed_two_responses :
  forall s form env w h n g err,
    FormValue form "prompt" <> EmptyString ->
    parseFormInt (FormValue form "width") 64 1024 = inl w ->
    parseFormInt (FormValue form "height") 64 1024 = inl h ->
    parseFormInt (FormValue form "num_steps") 1 10 = inl n ->
    parseFormFloat (FormValue form "guidance_scale") f0 f10 = inl g ->
    is_nan g = false ->
    FormValue form "seed" <> EmptyString ->
    parseFormInt (FormValue form "seed") MinInt MaxInt = inr err ->
    List.length (responses (run s form env)) = 2%nat.
Proof.
  intros s form env w h n g err Hp Hw Hh Hn Hg Hnan Hs Hse.
  rewrite (run_validated s form env w h n g (BadSeed err)) by (simpl; auto).
  pose proof (parseFormFloat_not_inf _ _ Hg) as Hinf.
  unfold after_validation.
  destruct g; try discriminate; simpl app;
    rewrite !responses_cons; simpl is_response; cbv iota;
    simpl List.length; rewrite after_post_one_response; reflexivity.
Qed.

Lemma generate_invalid_seed_two_responses_witness :
  List.length (responses (run sample_server (sample_form "0.0" "abc") env_ok)) = 2%nat.
Proof.
  apply (generate_invalid_seed_two_responses sample_server (sample_form "0.0" "abc") env_ok
           512 384 4 f0 "invalid integer: abc");
    vm_compute; first [reflexivity | discriminate].
Defined.

(** C4: the handler's behaviour does not depend on the [Server] value: the
    outbound POST goes to the fixed URL [backend_url], not to the
    configured [Backend] followed by /v1/images/generations. *)
Theorem generate_ignores_backend :
  (forall s s' form env, run s form env = run s' form env) /\
  posts (run sample_server (sample_form "0.0" "") env_ok) =
    [Post "http://localhost:8000/v1/images/generations" "application/json"
       (JObject (payload_doc "cat" 512 384 4 f0 None))] /\
  backend_url <> (Backend sample_server ++ "/v1/images/generations")%string.
Proof.
  split; [intros; reflexivity|].
  split; [vm_compute; reflexivity|].
  vm_compute; discriminate.
Qed.

(** C6: "NaN" parses and passes the range check of guidance_scale (every
    comparison with NaN is false), so the request is not rejected with a
    400: the encoding of the payload fails and the handler answers 500. *)
Theorem generate_guidance_nan :
  ParseFloat "NaN" = Some NaN /\
  parseFormFloat "NaN" f0 f10 = inl NaN /\
  forall s env, run s (sample_form "NaN" "") env = [Respond 500 "Failed to encode JSON"].
Proof.
  split; [reflexivity|].
  split; [vm_compute; reflexivity|].
  intros s env. vm_compute. reflexivity.
Qed.

Lemma after_post_no_encode_error :
  forall env doc, ~ In (Respond 500 "Failed to encode JSON") (after_post env doc).
Proof.
  intros env doc. unfold after_post.
  destruct (backend_reply env _ _ _) as [|st [body|]];
    [| destruct (Unmarshal body) |]; simpl; intro H;
    repeat (destruct H as [H|H]; [discriminate H|]); contradiction.
Qed.

(** C9: for a request that passes the validation of the five fields
    (whatever its seed), the "Failed to encode JSON" branch is taken
    exactly when guidance_scale parsed to NaN. *)
Theorem generate_encode_error_iff_nan :
  forall s form env w h n g so,
    FormValue form "prompt" <> EmptyString ->
    parseFormInt (FormValue form "width") 64 1024 = inl w ->
    parseFormInt (FormValue form "height") 64 1024 = inl h ->
    parseFormInt (FormValue form "num_steps") 1 10 = inl n ->
    parseFormFloat (FormValue form "guidance_scale") f0 f10 = inl g ->
    seed_state form so ->
    (In (Respond 500 "Failed to encode JSON") (run s form env) <-> is_nan g = true).
Proof.
  intros s form env w h n g so Hp Hw Hh Hn Hg Hs.
  rewrite (run_validated s form env w h n g so Hp Hw Hh Hn Hg Hs).
  pose proof (parseFormFloat_not_inf _ _ Hg) as Hinf.
  unfold after_validation.
  split.
  - intro Hin. apply in_app_or in Hin. destruct Hin as [Hin|Hin].
    + destruct so; simpl in Hin; try contradiction.
      destruct Hin as [H|[]]; discriminate H.
    + destruct g; try reflexivity; try discriminate.
      all: destruct Hin as [H|Hin]; [discriminate H|].
      all: exfalso; exact (after_post_no_encode_error _ _ Hin).
  - intro Hnan. destruct g; try discriminate.
    apply in_or_app. right. left. reflexivity.
Qed.

Lemma generate_encode_error_iff_nan_witness :
  (In (Respond 500 "Failed to encode JSON") (run sample_server (sample_form "NaN" "") env_ok)
   <-> is_nan NaN = true).
Proof.
  apply (generate_encode_error_iff_nan sample_server (sample_form "NaN" "") env_ok
           512 384 4 NaN NoSeed);
    vm_compute; first [reflexivity | discriminate].
Defined.

Lemma decode_elems_slice :
  forall fuel depth acc s v r, decode_elems fuel depth acc s = Some (v, r) -> exists l, v = ASlice l.
Proof.
  induction fuel as [|f IH]; intros depth acc s v r H; [discriminate|].
  cbn [decode_elems] in H.
  destruct (decode_value f depth s) as [[x r0]|]; [|discriminate].
  destruct (starts_with ","%char (skip_ws r0)); [eapply IH; exact H|].
  destruct (starts_with "]"%char (skip_ws r0)); [|discriminate].
  injection H as <- _. eexists; reflexivity.
Qed.

Lemma bad_body_no_200 :
  forall s form st body d,
    Unmarshal body = None ->
    forall e, In e (responses (run s form (const_env (Reply st (Some body)) d))) ->
      status_of e <> 200.
Proof.
  intros s form st body d Hb.
  unfold_monad. cbv delta [const_env backend_reply].
  split_run.
  all: try discriminate.
  all: close_run_goals.
Qed.

Lemma bad_body_last_500 :
  forall s form st body d,
    Unmarshal body = None ->
    posts (run s form (const_env (Reply st (Some body)) d)) <> [] ->
    last (responses (run s form (const_env (Reply st (Some body)) d))) (Respond 0 "")
      = Respond 500 "Failed to parse JSON response".
Proof.
  intros s form st body d Hb.
  unfold_monad. cbv delta [const_env backend_reply].
  split_run.
  all: try discriminate.
  all: simpl; intro Hne; first [reflexivity | exfalso; apply Hne; reflexivity].
Qed.

Lemma prefix_head :
  forall a s1 b s2, String.prefix (String a s1) (String b s2) = true -> a = b.
Proof.
  intros a s1 b s2 H. simpl in H. destruct (ascii_dec a b); [assumption|discriminate H].
Qed.

Lemma decode_value_not_map :
  forall fuel depth s v r,
    starts_with "{"%char (skip_ws s) = false ->
    starts_with "n"%char (skip_ws s) = false ->
    decode_value fuel depth s = Some (v, r) ->
    v <> ANil /\ forall m, v <> AMap m.
Proof.
  intros [|fuel] depth s v r Hb Hn H; [discriminate|].
  cbn [decode_value] in H. cbv zeta in H.
  destruct (skip_ws s) as [|c rest]; [discriminate|].
  cbn [starts_with] in Hb, Hn. apply Ascii.eqb_neq in Hb, Hn.
  destruct (Ascii.eqb c "{"%char) eqn:Ec; [apply Ascii.eqb_eq in Ec; congruence|].
  assert (Hv : (exists l, v = ASlice l) \/ (exists x, v = AString x) \/
               (exists b, v = ABool b) \/ (exists f, v = AFloat f)).
  { destruct (Ascii.eqb c "["%char).
    - destruct (maxNestingDepth <? depth + 1); [discriminate|].
      destruct (starts_with "]"%char (skip_ws rest)).
      + injection H as <- _. left; eexists; reflexivity.
      + left. exact (decode_elems_slice _ _ _ _ _ _ H).
    - destruct (Ascii.eqb c dquote).
      + destruct (unquote _ rest) as [[x r0]|]; [|discriminate].
        injection H as <- _. right; left; eexists; reflexivity.
      + destruct (String.prefix "true" (String c rest));
          [injection H as <- _; right; right; left; eexists; reflexivity|].
        destruct (String.prefix "false" (String c rest));
          [injection H as <- _; right; right; left; eexists; reflexivity|].
        destruct (String.prefix "null" (String c rest)) eqn:Hnull.
        * exfalso. exact (Hn (prefix_head _ _ _ _ Hnull)).
        * destruct (scan_number (String c rest)) as [k|]; [|discriminate].
          destruct (ParseFloat _) as [f|]; [|discriminate].
          injection H as <- _. right; right; right; eexists; reflexivity. }
  destruct Hv as [[? ->]|[[? ->]|[[? ->]|[? ->]]]]; split; discriminate.
Qed.

Lemma Unmarshal_not_object :
  forall body,
    starts_with "{"%char (skip_ws body) = false ->
    starts_with "n"%char (skip_ws body) = false ->
    Unmarshal body = None.
Proof.
  intros body Hb Hn. unfold Unmarshal.
  destruct (decode_value _ 0 body) as [[v rest]|] eqn:E; [|reflexivity].
  destruct (decode_value_not_map _ _ _ _ _ Hb Hn E) as [H1 H2].
  destruct (skip_ws rest); [|reflexivity].
  destruct v; try reflexivity; [contradiction H1; reflexivity|].
  exfalso; exact (H2 _ eq_refl).
Qed.

Lemma decoded_body_last_render :
  forall s form st body d result,
    Unmarshal body = Some result ->
    posts (run s form (const_env (Reply st (Some body)) d)) <> [] ->
    last (responses (run s form (const_env (Reply st (Some body)) d))) (Respond 0 "")
      = Rendered 200 "result.html"
          [("image"%string, map_index result "image");
           ("gen_time"%string, AFloat (roundFloat (Seconds d) 2))].
Proof.
  intros s form st body d result Hb.
  unfold_monad. cbv delta [const_env backend_reply].
  split_run.
  all: try discriminate.
  all: try (injection Hb as ->).
  all: simpl; intro Hne; first [reflexivity | exfalso; apply Hne; reflexivity].
Qed.

Lemma decoded_body_no_500 :
  forall s form st body d result,
    Unmarshal body = Some result ->
    posts (run s form (const_env (Reply st (Some body)) d)) <> [] ->
    forall e, In e (responses (run s form (const_env (Reply st (Some body)) d))) ->
      status_of e <> 500.
Proof.
  intros s form st body d result Hb.
  unfold_monad. cbv delta [const_env backend_reply].
  split_run.
  all: try discriminate.
  all: simpl; intros Hne e H;
    first [ exfalso; apply Hne; reflexivity
          | repeat (destruct H as [H|H]; [subst e; simpl; discriminate|]); contradiction ].
Qed.

Lemma reply_status_ignored :
  forall s form st st' read d,
    run s form (const_env (Reply st read) d) = run s form (const_env (Reply st' read) d).
Proof. intros; reflexivity. Qed.

(** C2 (counterexample): a backend answering 503 with the JSON body {}
    gets a 200 fragment: the status code is not inspected. *)
Lemma generate_non2xx_counterexample :
  map status_of (responses (run sample_server (sample_form "0.0" "")
                              (const_env (Reply 503 (Some "{}"%string)) 42000000))) = [200].
Proof. vm_compute. reflexivity. Qed.

(** C2 (amended): the backend's status code is never inspected: the
    handler behaves the same for every status.  When the backend body does
    not decode into [map[string]any] (invalid JSON, JSON other than an
    object or null, a number out of the range of [float64]), no 200 is
    written and, once the backend was called, the last response is the 500
    "Failed to parse JSON response".  When the body decodes, whatever the
    status, the last response is the 200 fragment built from the decoded
    map and no 500 is written. *)
Theorem generate_bad_body_500 :
  forall s form st st' body d,
    (forall read, run s form (const_env (Reply st' read) d)
                  = run s form (const_env (Reply st read) d)) /\
    (Unmarshal body = None ->
     (forall e, In e (responses (run s form (const_env (Reply st (Some body)) d))) ->
        status_of e <> 200) /\
     (posts (run s form (const_env (Reply st (Some body)) d)) <> [] ->
      last (responses (run s form (const_env (Reply st (Some body)) d))) (Respond 0 "")
        = Respond 500 "Failed to parse JSON response")) /\
    (forall result, Unmarshal body = Some result ->
     posts (run s form (const_env (Reply st (Some body)) d)) <> [] ->
     last (responses (run s form (const_env (Reply st (Some body)) d))) (Respond 0 "")
       = Rendered 200 "result.html"
           [("image"%string, map_index result "image");
            ("gen_time"%string, AFloat (roundFloat (Seconds d) 2))] /\
     (forall e, In e (responses (run s form (const_env (Reply st (Some body)) d))) ->
        status_of e <> 500)).
Proof.
  intros s form st st' body d.
  split; [intro read; apply reply_status_ignored|].
  split.
  - intro Hb. split; [exact (bad_body_no_200 s form st body d Hb)|].
    exact (bad_body_last_500 s form st body d Hb).
  - intros result Hb Hp. split.
    + exact (decoded_body_last_render s form st body d result Hb Hp).
    + exact (decoded_body_no_500 s form st body d result Hb Hp).
Qed.

Lemma generate_bad_body_500_witness :
  (forall e, In e (responses (run sample_server (sample_form "0.0" "")
                                (const_env (Reply 200 (Some "<html>"%string)) 42000000))) ->
     status_of e <> 200) /\
  last (responses (run sample_server (sample_form "0.0" "")
                     (const_env (Reply 200 (Some "<html>"%string)) 42000000))) (Respond 0 "")
    = Respond 500 "Failed to parse JSON response" /\
  last (responses (run sample_server (sample_form "0.0" "")
                     (const_env (Reply 503 (Some "{}"%string)) 42000000))) (Respond 0 "")
    = Rendered 200 "result.html"
        [("image"%string, ANil); ("gen_time"%string, AFloat (roundFloat (Seconds 42000000) 2))] /\
  (forall e, In e (responses (run sample_server (sample_form "0.0" "")
                                (const_env (Reply 503 (Some "{}"%string)) 42000000))) ->
     status_of e <> 500).
Proof.
  destruct (generate_bad_body_500 sample_server (sample_form "0.0" "") 200 200 "<html>" 42000000)
    as [_ [Hbad _]].
  destruct (Hbad ltac:(vm_compute; reflexivity)) as [H1 H2].
  destruct (generate_bad_body_500 sample_server (sample_form "0.0" "") 503 503 "{}" 42000000)
    as [_ [_ Hok]].
  destruct (Hok [] ltac:(vm_compute; reflexivity) ltac:(vm_compute; discriminate)) as [H3 H4].
  split; [exact H1|]. split; [apply H2; vm_compute; discriminate|].
  split; [exact H3|exact H4].
Defined.

Lemma no_image_last_render :
  forall s form st body d result,
    Unmarshal body = Some result ->
    map_get "image" result = None ->
    posts (run s form (const_env (Reply st (Some body)) d)) <> [] ->
    last (responses (run s form (const_env (Reply st (Some body)) d))) (Respond 0 "")
      = Rendered 200 "result.html"
          [("image"%string, ANil); ("gen_time"%string, AFloat (roundFloat (Seconds d) 2))].
Proof.
  intros s form st body d result Hb Hi.
  unfold_monad. cbv delta [const_env backend_reply].
  split_run.
  all: try discriminate.
  all: try (injection Hb as ->; unfold map_index; rewrite Hi).
  all: simpl; intro Hne; first [reflexivity | exfalso; apply Hne; reflexivity].
Qed.

(** C10 (counterexample): the body [] is valid JSON without an "image"
    key, but it does not decode into [map[string]any]: the handler answers
    500. *)
Lemma generate_json_array_counterexample :
  responses (run sample_server (sample_form "0.0" "")
               (const_env (Reply 200 (Some "[]"%string)) 42000000))
    = [Respond 500 "Failed to parse JSON response"].
Proof. vm_compute. reflexivity. Qed.

(** C10 (amended): when the backend body decodes into [map[string]any]
    (a JSON object, or null) without an "image" key, the handler's last
    response is the 200 fragment with a nil image and the rounded
    generation time, and no 500 is written.  A body whose first byte after
    white space is neither '{' nor 'n' (every JSON array, string, number,
    true and false) never decodes into the map: no 200 is written and, once
    the backend was called, the last response is the 500 "Failed to parse
    JSON response". *)
Theorem generate_missing_image_renders :
  forall s form st body d,
    (forall result,
       Unmarshal body = Some result ->
       map_get "image" result = None ->
       posts (run s form (const_env (Reply st (Some body)) d)) <> [] ->
       last (responses (run s form (const_env (Reply st (Some body)) d))) (Respond 0 "")
         = Rendered 200 "result.html"
             [("image"%string, ANil); ("gen_time"%string, AFloat (roundFloat (Seconds d) 2))] /\
       (forall e, In e (responses (run s form (const_env (Reply st (Some body)) d))) ->
          status_of e <> 500)) /\
    (starts_with "{"%char (skip_ws body) = false ->
     starts_with "n"%char (skip_ws body) = false ->
     (forall e, In e (responses (run s form (const_env (Reply st (Some body)) d))) ->
        status_of e <> 200) /\
     (posts (run s form (const_env (Reply st (Some body)) d)) <> [] ->
      last (responses (run s form (const_env (Reply st (Some body)) d))) (Respond 0 "")
        = Respond 500 "Failed to parse JSON response")).
Proof.
  intros s form st body d. split.
  - intros result Hb Hi Hp. split.
    + exact (no_image_last_render s form st body d result Hb Hi Hp).
    + exact (decoded_body_no_500 s form st body d result Hb Hp).
  - intros Hb Hn. pose proof (Unmarshal_not_object body Hb Hn) as Hu. split.
    + exact (bad_body_no_200 s form st body d Hu).
    + exact (bad_body_last_500 s form st body d Hu).
Qed.

Lemma generate_missing_image_renders_witness :
  last (responses (run sample_server (sample_form "0.0" "")
                     (const_env (Reply 200 (Some "{}"%string)) 42000000))) (Respond 0 "")
    = Rendered 200 "result.html"
        [("image"%string, ANil); ("gen_time"%string, AFloat (roundFloat (Seconds 42000000) 2))] /\
  (forall e, In e (responses (run sample_server (sample_form "0.0" "")
                                (const_env (Reply 200 (Some "{}"%string)) 42000000))) ->
     status_of e <> 500) /\
  last (responses (run sample_server (sample_form "0.0" "")
                     (const_env (Reply 200 (Some " [1, 2]"%string)) 42000000))) (Respond 0 "")
    = Respond 500 "Failed to parse JSON response".
Proof.
  destruct (generate_missing_image_renders sample_server (sample_form "0.0" "") 200 "{}" 42000000)
    as [Hok _].
  destruct (Hok [] ltac:(vm_compute; reflexivity) ltac:(vm_compute; reflexivity)
                ltac:(vm_compute; discriminate)) as [H1 H2].
  destruct (generate_missing_image_renders sample_server (sample_form "0.0" "") 200 " [1, 2]"
              42000000) as [_ Hbad].
  destruct (Hbad ltac:(vm_compute; reflexivity) ltac:(vm_compute; reflexivity)) as [_ H3].
  split; [exact H1|]. split; [exact H2|]. apply H3; vm_compute; discriminate.
Defined.

Lemma round_half_away_nearest :
  forall m d, 0 < d -> 0 <= m ->
    2 * Z.abs (m - round_half_away m d * d) <= d /\
    (2 * Z.abs (m - round_half_away m d * d) = d -> m < round_half_away m d * d).
Proof.
  intros m d Hd Hm. unfold round_half_away.
  pose proof (Z.div_mod m d ltac:(lia)) as Hdm.
  pose proof (Z.mod_pos_bound m d Hd) as Hr.
  destruct (d <=? 2 * (m mod d)) eqn:E; [apply Z.leb_le in E | apply Z.leb_gt in E].
  - rewrite Z.abs_neq by nia. split; nia.
  - rewrite Z.abs_eq by nia. split; nia.
Qed.

Lemma rendered_gen_time :
  forall s form env st name data,
    In (Rendered st name data) (run s form env) ->
    map_get "gen_time" data = Some (AFloat (roundFloat (Seconds (elapsed env)) 2)).
Proof.
  intros s form env st name data.
  unfold_monad.
  split_run.
  all: simpl; intro H;
    repeat (destruct H as [H|H]; [first [discriminate H | injection H as <- <- <-; reflexivity]|]);
    contradiction.
Qed.

(** C8: the reported generation time is [roundFloat] of the elapsed
    seconds at precision 2, and [roundFloat x 2] multiplies [x] by 100,
    rounds to the nearest integer with ties away from zero, and divides by
    100: the integer [n] that [Round] keeps for [m / d] lies within [1/2]
    of it, and on a tie above it.  1.2349 maps to 1.23, 1.2351 to 1.24,
    and the tie 0.125 to 0.13 (-0.125 to -0.13). *)
Theorem roundFloat_gen_time :
  (forall s form env st name data,
     In (Rendered st name data) (run s form env) ->
     map_get "gen_time" data = Some (AFloat (roundFloat (Seconds (elapsed env)) 2))) /\
  (forall x, roundFloat x 2 = fdiv (Round (fmul x (float_of_Z 100))) (float_of_Z 100)) /\
  (forall s m e, e < 0 ->
     Round (S754_finite s m e) =
       let n := round_half_away (Z.pos m) (2 ^ (- e)) in
       if n =? 0 then S754_zero s
       else binary_normalize prec emax (if s then - n else n) 0 s) /\
  (forall m d, 0 < d -> 0 <= m ->
     2 * Z.abs (m - round_half_away m d * d) <= d /\
     (2 * Z.abs (m - round_half_away m d * d) = d -> m < round_half_away m d * d)) /\
  option_map (fun x => roundFloat x 2) (ParseFloat "1.2349") = ParseFloat "1.23" /\
  option_map (fun x => roundFloat x 2) (ParseFloat "1.2351") = ParseFloat "1.24" /\
  option_map (fun x => roundFloat x 2) (ParseFloat "0.125") = ParseFloat "0.13" /\
  option_map (fun x => roundFloat x 2) (ParseFloat "-0.125") = ParseFloat "-0.13".
Proof.
  split; [exact rendered_gen_time|].
  split; [intro x; reflexivity|].
  split.
  { intros s m e He. unfold Round.
    destruct (0 <=? e) eqn:E; [apply Z.leb_le in E; lia|]. reflexivity. }
  split; [exact round_half_away_nearest|].
  repeat split; vm_compute; reflexivity.
Qed.

Lemma roundFloat_gen_time_witness :
  map_get "gen_time" (result_data env_ok [("image"%string, AString "data:image/png;base64,AAAA")]) =
    Some (AFloat (roundFloat (Seconds (elapsed env_ok)) 2)) /\
  Round (S754_finite false 5 (-1)) =
    (let n := round_half_away 5 (2 ^ 1) in
     if n =? 0 then S754_zero false else binary_normalize prec emax n 0 false) /\
  (2 * Z.abs (5 - round_half_away 5 2 * 2) <= 2 /\
   (2 * Z.abs (5 - round_half_away 5 2 * 2) = 2 -> 5 < round_half_away 5 2 * 2)).
Proof.
  destruct roundFloat_gen_time as (Hr & _ & Hround & Hn & _).
  split; [|split].
  - apply (Hr sample_server (sample_form "0.0" "") env_ok 200 "result.html"%string).
    vm_compute. right. left. reflexivity.
  - apply (Hround false 5%positive (-1)). lia.
  - apply (Hn 5 2); lia.
Defined.

(** ** Further properties of the handler and of its helpers *)



Lemma byte_val_ascii_of_Z : forall z, 0 <= z < 256 -> byte_val (ascii_of_Z z) = z.
Proof.
  intros z Hz. unfold byte_val, ascii_of_Z.
  rewrite N_ascii_embedding by lia. lia.
Qed.

Lemma digit_char : forall r, 0 <= r < 10 ->
  is_digit (ascii_of_Z (48 + r)) = true /\ digit_val (ascii_of_Z (48 + r)) = r.
Proof.
  intros r Hr. unfold is_digit, digit_val.
  rewrite byte_val_ascii_of_Z by lia. split; [apply andb_true_intro; split; apply Z.leb_le|]; lia.
Qed.

Lemma pos_digits_value :
  forall fuel n acc a, 0 <= n < 10 ^ Z.of_nat (S fuel) ->
    exists k, 0 < k /\ digits_value (pos_digits (S fuel) n acc) a = digits_value acc (a * 10 ^ k + n).
Proof.
  induction fuel as [|f IH]; intros n acc a Hn.
  - exists 1. split; [lia|].
    pose proof (Z.mod_pos_bound n 10 ltac:(lia)) as Hm.
    destruct (digit_char (n mod 10) Hm) as [Hd Hv].
    change (pos_digits 1 n acc) with
      (let acc' := String (ascii_of_Z (48 + n mod 10)) acc in
       if n <? 10 then acc' else pos_digits 0 (n / 10) acc').
    cbv zeta.
    assert (Hx : digits_value (String (ascii_of_Z (48 + n mod 10)) acc) a
                 = digits_value acc (a * 10 ^ 1 + n)).
    { cbn [digits_value]. rewrite Hd, Hv. rewrite Z.mod_small by (simpl in Hn; lia).
      f_equal; lia. }
    destruct (n <? 10); exact Hx.
  - pose proof (Z.mod_pos_bound n 10 ltac:(lia)) as Hm.
    destruct (digit_char (n mod 10) Hm) as [Hd Hv].
    change (pos_digits (S (S f)) n acc) with
      (let acc' := String (ascii_of_Z (48 + n mod 10)) acc in
       if n <? 10 then acc' else pos_digits (S f) (n / 10) acc').
    cbv zeta.
    destruct (n <? 10) eqn:E.
    + exists 1. split; [lia|]. cbn [digits_value]. rewrite Hd, Hv.
      apply Z.ltb_lt in E. rewrite Z.mod_small by lia. f_equal; lia.
    + apply Z.ltb_ge in E.
      destruct (IH (n / 10) (String (ascii_of_Z (48 + n mod 10)) acc) a) as [k [Hk Hr]].
      { split; [apply Z.div_pos; lia|].
        apply Z.div_lt_upper_bound; [lia|].
        replace (Z.of_nat (S (S f))) with (1 + Z.of_nat (S f)) in Hn by lia.
        rewrite Z.pow_add_r in Hn by lia. lia. }
      exists (k + 1). split; [lia|]. rewrite Hr. cbn [digits_value]. rewrite Hd, Hv.
      f_equal. rewrite Z.pow_add_r by lia.
      pose proof (Z.div_mod n 10 ltac:(lia)). lia.
Qed.

Lemma pos_digits_head :
  forall fuel n acc c0 r0, acc = String c0 r0 -> is_digit c0 = true ->
    exists c r, pos_digits fuel n acc = String c r /\ is_digit c = true.
Proof.
  induction fuel as [|f IH]; intros n acc c0 r0 Ha Hd.
  - exists c0, r0. subst. split; [reflexivity|exact Hd].
  - pose proof (Z.mod_pos_bound n 10 ltac:(lia)) as Hm.
    destruct (digit_char (n mod 10) Hm) as [Hd' _].
    simpl. destruct (n <? 10).
    + eexists _, _. split; [reflexivity|exact Hd'].
    + eapply IH; [reflexivity|exact Hd'].
Qed.

Lemma pos_digits_start :
  forall f n acc, exists c r, pos_digits (S f) n acc = String c r /\ is_digit c = true.
Proof.
  intros f n acc.
  pose proof (Z.mod_pos_bound n 10 ltac:(lia)) as Hm.
  destruct (digit_char (n mod 10) Hm) as [Hd' _].
  simpl. destruct (n <? 10).
  - eexists _, _. split; [reflexivity|exact Hd'].
  - eapply pos_digits_head; [reflexivity|exact Hd'].
Qed.

Lemma log2_fuel : forall n, 0 <= n -> n < 10 ^ Z.of_nat (S (Z.to_nat (Z.log2 n) + 1)).
Proof.
  intros n Hn.
  replace (Z.of_nat (S (Z.to_nat (Z.log2 n) + 1))) with (Z.log2 n + 2)
    by (pose proof (Z.log2_nonneg n); lia).
  assert (n < 2 ^ (Z.log2 n + 1)).
  { destruct (Z.eq_dec n 0) as [->|]; [reflexivity|].
    apply Z.log2_spec; lia. }
  assert (2 ^ (Z.log2 n + 1) <= 10 ^ (Z.log2 n + 1)).
  { apply Z.pow_le_mono_l. pose proof (Z.log2_nonneg n); lia. }
  assert (10 ^ (Z.log2 n + 1) < 10 ^ (Z.log2 n + 2)).
  { apply Z.pow_lt_mono_r; pose proof (Z.log2_nonneg n); lia. }
  lia.
Qed.

Lemma is_digit_not_sign : forall c, is_digit c = true ->
  Ascii.eqb c "-"%char = false /\ Ascii.eqb c "+"%char = false.
Proof.
  intros c Hc. split; destruct (Ascii.eqb_spec c "-"%char) as [->|]; try reflexivity;
    try (vm_compute in Hc; discriminate);
    destruct (Ascii.eqb_spec c "+"%char) as [->|]; try reflexivity; vm_compute in Hc; discriminate.
Qed.

(** [strconv.Atoi] reads back every Go [int] printed with [%d] (as in the range error of [parseFormInt]). *)
Lemma Atoi_fmt_d : forall v, MinInt <= v <= MaxInt -> Atoi (fmt_d v) = Some v.
Proof.
  intros v Hv. unfold fmt_d.
  destruct (v <? 0) eqn:Hneg.
  - apply Z.ltb_lt in Hneg.
    replace (Z.to_nat (Z.log2 (- v)) + 2)%nat with (S (Z.to_nat (Z.log2 (- v)) + 1)) by lia.
    destruct (pos_digits_start (Z.to_nat (Z.log2 (- v)) + 1) (- v) EmptyString) as (c & r & Hs & Hd).
    destruct (pos_digits_value (Z.to_nat (Z.log2 (- v)) + 1) (- v) EmptyString 0) as (k & _ & Hval).
    { split; [lia|]. apply log2_fuel; lia. }
    unfold Atoi. simpl Ascii.eqb. cbv iota beta. rewrite Hs. rewrite <- Hs, Hval. simpl.
    replace (- (- v)) with v by lia.
    replace ((MinInt <=? v) && (v <=? MaxInt)) with true; [reflexivity|].
    symmetry. apply andb_true_intro. split; apply Z.leb_le; lia.
  - apply Z.ltb_ge in Hneg.
    replace (Z.to_nat (Z.log2 v) + 2)%nat with (S (Z.to_nat (Z.log2 v) + 1)) by lia.
    destruct (pos_digits_start (Z.to_nat (Z.log2 v) + 1) v EmptyString) as (c & r & Hs & Hd).
    destruct (pos_digits_value (Z.to_nat (Z.log2 v) + 1) v EmptyString 0) as (k & _ & Hval).
    { split; [lia|]. apply log2_fuel; lia. }
    destruct (is_digit_not_sign c Hd) as [Hm Hp].
    unfold Atoi. rewrite Hs, Hm, Hp. rewrite <- Hs, Hval. simpl.
    replace ((MinInt <=? v) && (v <=? MaxInt)) with true; [reflexivity|].
    symmetry. apply andb_true_intro. split; apply Z.leb_le; lia.
Qed.

Lemma digits_value_all_digits : forall s acc u, digits_value s acc = Some u -> all_digits s = true.
Proof.
  induction s as [|c s IH]; intros acc u H; [reflexivity|].
  simpl in *. destruct (is_digit c); [|discriminate]. simpl. eapply IH; exact H.
Qed.

(** [strconv.Atoi] accepts only an optional sign followed by at least one decimal digit, and only values within [MinInt .. MaxInt]. *)
Lemma Atoi_syntax :
  forall s v, Atoi s = Some v ->
    MinInt <= v <= MaxInt /\
    exists body, body <> EmptyString /\ all_digits body = true /\
      (s = body \/ s = String "+"%char body \/ s = String "-"%char body).
Proof.
  intros s v H. unfold Atoi in H.
  destruct s as [|c rest]; [discriminate|].
  assert (Hb : forall (neg : bool) (body : string),
    match body with
    | EmptyString => None
    | _ => match digits_value body 0 with
           | None => None
           | Some u => let n := if neg then - u else u in
                       if (MinInt <=? n) && (n <=? MaxInt) then Some n else None
           end
    end = Some v ->
    MinInt <= v <= MaxInt /\ body <> EmptyString /\ all_digits body = true).
  { intros neg body Hm. destruct body as [|b r]; [discriminate|].
    destruct (digits_value (String b r) 0) as [u|] eqn:Hd; [|discriminate].
    cbv zeta in Hm.
    destruct ((MinInt <=? (if neg then - u else u)) && ((if neg then - u else u) <=? MaxInt)) eqn:Hr;
      [|discriminate].
    injection Hm as Hm. apply andb_prop in Hr as [H1 H2].
    apply Z.leb_le in H1, H2. subst v.
    split; [lia|]. split; [discriminate|]. eapply digits_value_all_digits; exact Hd. }
  destruct (Ascii.eqb_spec c "-"%char) as [->|Hm].
  - destruct (Hb true rest H) as (Hr & Hne & Ha). split; [exact Hr|].
    exists rest. auto.
  - destruct (Ascii.eqb_spec c "+"%char) as [->|Hp].
    + destruct (Hb false rest H) as (Hr & Hne & Ha). split; [exact Hr|].
      exists rest. auto.
    + destruct (Hb false (String c rest) H) as (Hr & Hne & Ha). split; [exact Hr|].
      exists (String c rest). auto.
Qed.

(** With the full range [MinInt .. MaxInt] (the seed), [parseFormInt] can only fail with "invalid integer: " followed by the field. *)
Lemma parseFormInt_full_range :
  forall field e, parseFormInt field MinInt MaxInt = inr e -> e = ("invalid integer: " ++ field)%string.
Proof.
  intros field e H. unfold parseFormInt in H.
  destruct (Atoi field) as [x|] eqn:Ha.
  - destruct (Atoi_syntax _ _ Ha) as [[H1 H2] _].
    replace ((x <? MinInt) || (x >? MaxInt)) with false in H; [discriminate|].
    rewrite Z.gtb_ltb. symmetry. apply orb_false_intro; apply Z.ltb_ge; lia.
  - injection H as <-. reflexivity.
Qed.

Lemma SFcompare_antisym :
  forall x y, SFcompare y x = option_map CompOpp (SFcompare x y).
Proof.
  intros [sx|sx| |sx mx ex] [sy|sy| |sy my ey]; simpl; try reflexivity;
    try (destruct sx; reflexivity); try (destruct sy; reflexivity);
    try (destruct sx, sy; reflexivity).
  destruct sx, sy; simpl; try reflexivity;
    rewrite (Z.compare_antisym ex ey); destruct (ex ?= ey); simpl; try reflexivity;
    rewrite (Pos.compare_cont_antisym mx my Eq); reflexivity.
Qed.

Lemma flt_false_leb :
  forall x y, x <> NaN -> y <> NaN -> flt x y = false -> SFleb y x = true.
Proof.
  intros x y Hx Hy H. unfold flt, SFltb in H. unfold SFleb.
  rewrite (SFcompare_antisym x y).
  destruct (SFcompare x y) as [[| |]|] eqn:E; try discriminate; try reflexivity.
  destruct x, y; try discriminate E; exfalso; auto.
Qed.

(** A value accepted by [parseFormFloat] is the one [strconv.ParseFloat] reads, and it lies in [min .. max] unless it or a bound is NaN. *)
Lemma parseFormFloat_range :
  forall field min max v,
    parseFormFloat field min max = inl v ->
    ParseFloat field = Some v /\
    (v = NaN \/ min = NaN \/ max = NaN \/ (SFleb min v = true /\ SFleb v max = true)).
Proof.
  intros field min max v H. unfold parseFormFloat in H.
  destruct (ParseFloat field) as [x|]; [|discriminate].
  destruct (flt x min || flt max x) eqn:E; [discriminate|].
  injection H as <-. split; [reflexivity|].
  apply orb_false_elim in E as [E1 E2].
  destruct (is_nan x) eqn:Hx; [left; destruct x; try discriminate; reflexivity|].
  destruct (is_nan min) eqn:Hmin; [right; left; destruct min; try discriminate; reflexivity|].
  destruct (is_nan max) eqn:Hmax; [right; right; left; destruct max; try discriminate; reflexivity|].
  assert (Hn : forall f, is_nan f = false -> f <> NaN) by (intros f Hf ->; discriminate).
  apply Hn in Hx, Hmin, Hmax.
  right; right; right. split.
  - exact (flt_false_leb x min Hx Hmin E1).
  - exact (flt_false_leb max x Hmax Hx E2).
Qed.

Lemma round_aux_opp :
  forall s m e l, SFopp (binary_round_aux prec emax s m e l) = binary_round_aux prec emax (negb s) m e l.
Proof.
  intros s m e l. unfold binary_round_aux.
  destruct (shr_fexp prec emax m e l) as [mrs' e'].
  destruct (shr_fexp prec emax _ e' loc_Exact) as [mrs'' e''].
  destruct (shr_m mrs'') as [|p|p]; try reflexivity.
  destruct (e'' <=? emax - prec); reflexivity.
Qed.

Lemma fmul_opp_l : forall x y, fmul (SFopp x) y = SFopp (fmul x y).
Proof.
  intros [sx|sx| |sx mx ex] [sy|sy| |sy my ey]; unfold fmul; simpl;
    try reflexivity; try (destruct sx, sy; reflexivity).
  rewrite round_aux_opp. destruct sx, sy; reflexivity.
Qed.

Lemma fdiv_opp_l : forall x y, fdiv (SFopp x) y = SFopp (fdiv x y).
Proof.
  intros [sx|sx| |sx mx ex] [sy|sy| |sy my ey]; unfold fdiv; simpl;
    try reflexivity; try (destruct sx, sy; reflexivity).
  destruct (SFdiv_core_binary prec emax (Z.pos mx) ex (Z.pos my) ey) as [[mz ez] lz].
  rewrite round_aux_opp. destruct sx, sy; reflexivity.
Qed.

Lemma round_half_away_nonneg : forall m d, 0 <= m -> 0 < d -> 0 <= round_half_away m d.
Proof.
  intros m d Hm Hd. unfold round_half_away.
  pose proof (Z.div_pos m d Hm Hd). destruct (d <=? 2 * (m mod d)); lia.
Qed.

Lemma binary_round_opp :
  forall s p e, SFopp (binary_round prec emax s p e) = binary_round prec emax (negb s) p e.
Proof.
  intros s p e. unfold binary_round.
  destruct (shl_align p e _) as [mz ez]. apply round_aux_opp.
Qed.

(** [math.Round] commutes with negation: rounding is symmetric about zero. *)
Lemma Round_opp : forall x, Round (SFopp x) = SFopp (Round x).
Proof.
  intros [s|s| |s m e]; try reflexivity.
  change (SFopp (S754_finite s m e)) with (S754_finite (negb s) m e).
  unfold Round. cbv beta iota.
  destruct (0 <=? e) eqn:He; [reflexivity|].
  apply Z.leb_gt in He.
  cbv zeta.
  pose proof (round_half_away_nonneg (Z.pos m) (2 ^ (- e)) ltac:(lia) ltac:(apply Z.pow_pos_nonneg; lia))
    as Hn.
  destruct (round_half_away (Z.pos m) (2 ^ (- e))) as [|p|p]; simpl; try reflexivity; [|lia].
  destruct s; simpl; rewrite binary_round_opp; reflexivity.
Qed.

(** [roundFloat] commutes with negation, for every precision. *)
Lemma roundFloat_opp : forall x precision, roundFloat (SFopp x) precision = SFopp (roundFloat x precision).
Proof.
  intros x precision. unfold roundFloat.
  rewrite fmul_opp_l, Round_opp, fdiv_opp_l. reflexivity.
Qed.

(** [math.Round] maps a finite value of magnitude below one half to zero of the same sign. *)
Lemma Round_below_half :
  forall s m e, e < 0 -> 2 * Z.pos m < 2 ^ (- e) -> Round (S754_finite s m e) = S754_zero s.
Proof.
  intros s m e He Hm. unfold Round.
  replace (0 <=? e) with false by (symmetry; apply Z.leb_gt; lia).
  cbv zeta. unfold round_half_away.
  rewrite Z.div_small by lia. rewrite Z.mod_small by lia.
  replace (2 ^ (- e) <=? 2 * Z.pos m) with false by (symmetry; apply Z.leb_gt; lia).
  reflexivity.
Qed.

Lemma binary_round_aux_not_neg_zero :
  forall m e l, binary_round_aux prec emax false m e l <> S754_zero true.
Proof.
  intros m e l. unfold binary_round_aux.
  destruct (shr_fexp prec emax m e l) as [mrs' e'].
  destruct (shr_fexp prec emax _ e' loc_Exact) as [mrs'' e''].
  destruct (shr_m mrs'') as [|p|p]; try discriminate.
  destruct (e'' <=? emax - prec); discriminate.
Qed.

(** [Duration.Seconds] of a whole, nonnegative number of seconds is that number, exactly. *)
Lemma Seconds_whole : forall k, 0 <= k -> Seconds (k * Second) = float_of_Z k.
Proof.
  intros k Hk. unfold Seconds.
  rewrite Z.quot_mul by (unfold Second; lia).
  rewrite Z.rem_mul by (unfold Second; lia).
  replace (fdiv (float_of_Z 0) (float_of_Z 1000000000)) with (S754_zero false) by (vm_compute; reflexivity).
  assert (H : float_of_Z k <> S754_zero true).
  { unfold float_of_Z, binary_normalize. destruct k as [|p|p]; [discriminate| |lia].
    unfold binary_round. destruct (shl_align p 0 _) as [mz ez].
    apply binary_round_aux_not_neg_zero. }
  destruct (float_of_Z k) as [[|]|sx| |sx mx ex]; try reflexivity; exfalso; auto.
Qed.

Lemma Pow_int_ten_exact :
  forall p, 0 <= p <= 22 -> Pow_int (float_of_Z 10) p = float_of_Z (10 ^ p).
Proof.
  intros p Hp.
  destruct (Z_of_nat_complete p ltac:(lia)) as [n ->].
  assert (Hn : (n <= 22)%nat) by lia. clear Hp.
  do 23 (destruct n as [|n]; [vm_compute; reflexivity|]). lia.
Qed.

(** For precisions 0 to 22 the [math.Pow] ratio of [roundFloat] is exactly [10^p], so [roundFloat] rounds [x * 10^p] and divides by [10^p]. *)
Lemma roundFloat_exact_ratio :
  forall x p, 0 <= p <= 22 ->
    roundFloat x p = fdiv (Round (fmul x (float_of_Z (10 ^ p)))) (float_of_Z (10 ^ p)).
Proof.
  intros x p Hp. unfold roundFloat. rewrite Pow_int_ten_exact by exact Hp. reflexivity.
Qed.

Lemma coerce_utf8_ascii : forall fuel s, ascii7 s = true -> coerce_utf8 fuel s = s.
Proof.
  induction fuel as [|f IH]; intros s Hs; [reflexivity|].
  destruct s as [|c s]; [reflexivity|].
  simpl in Hs. apply andb_prop in Hs as [Hc Hs].
  simpl. rewrite Hc. rewrite IH by exact Hs. reflexivity.
Qed.

(** [json.Marshal] encodes a 7-bit ASCII string as the same string. *)
Lemma Marshal_ascii_string : forall s, ascii7 s = true -> Marshal (AString s) = Some (JString s).
Proof.
  intros s Hs. simpl. unfold sanitize. rewrite coerce_utf8_ascii by exact Hs. reflexivity.
Qed.

Lemma ltb_false_leb : forall a b, String.ltb a b = false -> String.leb b a = true.
Proof.
  intros a b H. unfold String.ltb in H. unfold String.leb.
  rewrite String.compare_antisym. destruct (String.compare a b); simpl; try reflexivity; discriminate.
Qed.

Lemma ltb_leb : forall a b, String.ltb a b = true -> String.leb a b = true.
Proof.
  intros a b H. unfold String.ltb in H. unfold String.leb.
  destruct (String.compare a b); try reflexivity; discriminate.
Qed.

Lemma insert_by_key_hd {A} :
  forall (a kv : string * A) l, HdRel key_le a l -> key_le a kv -> HdRel key_le a (insert_by_key kv l).
Proof.
  intros a kv [|kv' l] H1 H2; simpl.
  - constructor. exact H2.
  - destruct (String.ltb (fst kv') (fst kv)); constructor; [inversion H1; assumption | exact H2].
Qed.

Lemma insert_by_key_sorted {A} :
  forall (kv : string * A) l, Sorted key_le l -> Sorted key_le (insert_by_key kv l).
Proof.
  intros kv l. induction l as [|kv' l IH]; intro H; simpl.
  - repeat constructor.
  - inversion H as [|? ? Hl Hhd]; subst.
    destruct (String.ltb (fst kv') (fst kv)) eqn:E.
    + constructor; [exact (IH Hl)|]. apply insert_by_key_hd; [exact Hhd|].
      unfold key_le. apply ltb_leb. exact E.
    + constructor; [exact H|]. constructor. unfold key_le. apply ltb_false_leb. exact E.
Qed.

Lemma insert_by_key_perm {A} :
  forall (kv : string * A) l, Permutation (insert_by_key kv l) (kv :: l).
Proof.
  intros kv l. induction l as [|kv' l IH]; simpl; [reflexivity|].
  destruct (String.ltb (fst kv') (fst kv)); [|reflexivity].
  etransitivity; [apply perm_skip; exact IH|]. apply perm_swap.
Qed.

Lemma sort_by_key_sorted {A} : forall (l : list (string * A)), Sorted key_le (sort_by_key l).
Proof.
  induction l as [|kv l IH]; [constructor|]. apply insert_by_key_sorted. exact IH.
Qed.

Lemma sort_by_key_perm {A} : forall (l : list (string * A)), Permutation (sort_by_key l) l.
Proof.
  induction l as [|kv l IH]; [reflexivity|].
  unfold sort_by_key. simpl. fold (sort_by_key l).
  etransitivity; [apply insert_by_key_perm|]. apply perm_skip. exact IH.
Qed.

(** [json.Marshal] writes the members of a map sorted by key, one member per key of the map. *)
Lemma Marshal_object_sorted :
  forall m l, Marshal (AMap m) = Some (JObject l) ->
    exists js, Sorted key_le js /\ Permutation (map fst js) (map fst m) /\
               l = map (fun kj => (sanitize (fst kj), snd kj)) js.
Proof.
  intros m l H. cbn [Marshal] in H.
  match type of H with
  | context [match ?F m with _ => _ end] =>
      assert (HF : forall m' js, F m' = Some js -> map fst js = map fst m');
      [|destruct (F m) as [js|] eqn:Hjs; [|discriminate]]
  end.
  { induction m' as [|[k x] m' IH]; intros js Hj.
    - injection Hj as <-. reflexivity.
    - simpl in Hj. destruct (Marshal x); [|discriminate].
      destruct (_ m') as [js'|] eqn:E; [|discriminate].
      injection Hj as <-. simpl. f_equal. apply IH. reflexivity. }
  injection H as <-.
  exists (sort_by_key js). split; [apply sort_by_key_sorted|]. split; [|reflexivity].
  rewrite <- (HF m js Hjs). apply Permutation_map. apply sort_by_key_perm.
Qed.

(** On the values of [any] (nil, bools, ints, float64s, strings, and
    acyclic slices and string-keyed maps of them: the kinds of the payload),
    [json.Marshal] fails exactly when a NaN or an infinite float occurs. *)
Lemma Marshal_fails_iff :
  forall v, Marshal v = None <-> unsupported v = true.
Proof.
  induction v as [| b | n | f | s | l IHl | m IHm] using any_ind'; cbn [Marshal unsupported];
    try (split; discriminate).
  - destruct f as [sf|sf| |sf mf ef]; simpl; split; first [reflexivity | discriminate].
  - match goal with
    | |- match ?F l with _ => _ end = None <-> _ =>
        assert (HF : forall l', Forall (fun x => Marshal x = None <-> unsupported x = true) l' ->
                        (F l' = None <-> existsb unsupported l' = true))
    end.
    { induction l' as [|x l' IH]; intro Hf; simpl; [split; discriminate|].
      inversion Hf as [|? ? Hx Hl']; subst.
      specialize (IH Hl').
      destruct (Marshal x) eqn:Ex; destruct (_ l') eqn:El; simpl.
      all: rewrite <- ?Hx, <- ?IH; rewrite orb_true_iff; intuition congruence. }
    specialize (HF l IHl).
    destruct (_ l); simpl; rewrite <- HF; split; congruence.
  - match goal with
    | |- match ?F m with _ => _ end = None <-> _ =>
        assert (HF : forall m', Forall (fun kv => Marshal (snd kv) = None <-> unsupported (snd kv) = true) m' ->
                        (F m' = None <-> existsb (fun kv => unsupported (snd kv)) m' = true))
    end.
    { induction m' as [|[k x] m' IH]; intro Hf; simpl; [split; discriminate|].
      inversion Hf as [|? ? Hx Hm']; subst. simpl in Hx.
      specialize (IH Hm').
      destruct (Marshal x) eqn:Ex; destruct (_ m') eqn:Em; simpl.
      all: rewrite <- ?Hx, <- ?IH; rewrite orb_true_iff; intuition congruence. }
    specialize (HF m IHm).
    destruct (_ m); simpl; rewrite <- HF; split; congruence.
Qed.

Lemma run_cases :
  forall s form env,
    (exists msg, run s form env = [Respond 400 msg]) \/
    (exists w h n g so,
       FormValue form "prompt" <> EmptyString /\
       parseFormInt (FormValue form "width") 64 1024 = inl w /\
       parseFormInt (FormValue form "height") 64 1024 = inl h /\
       parseFormInt (FormValue form "num_steps") 1 10 = inl n /\
       parseFormFloat (FormValue form "guidance_scale") f0 f10 = inl g /\
       seed_state form so /\
       run s form env =
         seed_prefix so ++
         after_validation env (payload_doc (FormValue form "prompt") w h n g (seed_value so)) g).
Proof.
  intros s form env.
  destruct (String.eqb_spec (FormValue form "prompt") "") as [Ep|Ep].
  { left. eexists. unfold_monad. rewrite Ep. reflexivity. }
  destruct (parseFormInt (FormValue form "width") 64 1024) as [w|err] eqn:Hw;
    [|left; eexists; unfold_monad;
      destruct (String.eqb_spec (FormValue form "prompt") "") as [?|_]; [contradiction|];
      rewrite Hw; reflexivity].
  destruct (parseFormInt (FormValue form "height") 64 1024) as [h|err] eqn:Hh;
    [|left; eexists; unfold_monad;
      destruct (String.eqb_spec (FormValue form "prompt") "") as [?|_]; [contradiction|];
      rewrite Hw, Hh; reflexivity].
  destruct (parseFormInt (FormValue form "num_steps") 1 10) as [n|err] eqn:Hn;
    [|left; eexists; unfold_monad;
      destruct (String.eqb_spec (FormValue form "prompt") "") as [?|_]; [contradiction|];
      rewrite Hw, Hh, Hn; reflexivity].
  destruct (parseFormFloat (FormValue form "guidance_scale") f0 f10) as [g|err] eqn:Hg;
    [|left; eexists; unfold_monad;
      destruct (String.eqb_spec (FormValue form "prompt") "") as [?|_]; [contradiction|];
      rewrite Hw, Hh, Hn, Hg; reflexivity].
  assert (Hso : exists so, seed_state form so).
  { destruct (String.eqb_spec (FormValue form "seed") "") as [E|E]; [exists NoSeed; exact E|].
    destruct (parseFormInt (FormValue form "seed") MinInt MaxInt) as [v|err] eqn:Hse.
    - exists (GoodSeed v). exact Hse.
    - exists (BadSeed err). split; assumption. }
  destruct Hso as [so Hs].
  right. exists w, h, n, g, so. repeat split; try assumption.
  apply run_validated; assumption.
Qed.

Lemma after_validation_responses :
  forall env doc g, List.length (responses (after_validation env doc g)) = 1%nat.
Proof.
  intros env doc g. unfold after_validation.
  destruct g; try reflexivity; apply after_post_one_response.
Qed.

(** Every request gets one or two responses from [generate]. *)
Lemma handler_response_count :
  forall s form env, (1 <= List.length (responses (run s form env)) <= 2)%nat.
Proof.
  intros s form env.
  destruct (run_cases s form env) as [[msg ->]|(w & h & n & g & so & _ & _ & _ & _ & _ & _ & ->)];
    [simpl; lia|].
  rewrite responses_app, length_app, after_validation_responses.
  destruct so; simpl; lia.
Qed.

(** Every response of [generate] is a 400, a 500, or a 200 rendering of result.html. *)
Lemma handler_statuses :
  forall s form env e,
    In e (responses (run s form env)) ->
    (exists msg, e = Respond 400 msg) \/ (exists msg, e = Respond 500 msg) \/
    (exists data, e = Rendered 200 "result.html" data).
Proof.
  intros s form env e H. unfold responses in H. apply filter_In in H as [H Hr].
  destruct (run_cases s form env) as [[msg Hrun]|(w & h & n & g & so & _ & _ & _ & _ & _ & _ & Hrun)];
    rewrite Hrun in H.
  - in_list H; subst; eauto.
  - apply in_app_or in H as [H|H].
    + destruct so; simpl in H; in_list H; subst; eauto.
    + unfold after_validation, after_post in H.
      destruct g; [| |destruct H as [H|[]]; subst; eauto|]; simpl in H.
      all: try (destruct (backend_reply _ _ _ _) as [|st [body|]];
                [|destruct (Unmarshal body)|]).
      all: simpl in H; in_list H; subst; simpl in Hr; try discriminate; eauto.
Qed.

(** [generate] calls the backend at most once, and only when the five required fields validate and the guidance is not NaN. *)
Lemma handler_single_post :
  forall s form env,
    posts (run s form env) = [] \/
    (exists w h n g doc,
       FormValue form "prompt" <> EmptyString /\
       parseFormInt (FormValue form "width") 64 1024 = inl w /\
       parseFormInt (FormValue form "height") 64 1024 = inl h /\
       parseFormInt (FormValue form "num_steps") 1 10 = inl n /\
       parseFormFloat (FormValue form "guidance_scale") f0 f10 = inl g /\
       is_nan g = false /\
       posts (run s form env) = [Post backend_url "application/json" (JObject doc)]).
Proof.
  intros s form env.
  destruct (run_cases s form env) as [[msg ->]|(w & h & n & g & so & Hp & Hw & Hh & Hn & Hg & _ & ->)];
    [left; reflexivity|].
  pose proof (parseFormFloat_not_inf _ _ Hg) as Hinf.
  rewrite posts_app. unfold after_validation.
  destruct g; try discriminate.
  - right. exists w, h, n, (S754_zero s0), (payload_doc (FormValue form "prompt") w h n (S754_zero s0) (seed_value so)).
    repeat split; try assumption. rewrite posts_cons, after_post_no_post. destruct so; reflexivity.
  - left. destruct so; reflexivity.
  - right. exists w, h, n, (S754_finite s0 m e), (payload_doc (FormValue form "prompt") w h n (S754_finite s0 m e) (seed_value so)).
    repeat split; try assumption. rewrite posts_cons, after_post_no_post. destruct so; reflexivity.
Qed.

Lemma seed_prefix_no_post : forall so e, In e (seed_prefix so) -> is_post e = false.
Proof. intros [|v|err] e H; simpl in H; in_list H; subst; reflexivity. Qed.

Lemma seed_prefix_no_close : forall so, ~ In CloseBody (seed_prefix so).
Proof. intros [|v|err] H; simpl in H; in_list H; discriminate. Qed.

Lemma after_post_no_post_event : forall env doc e, In e (after_post env doc) -> is_post e = false.
Proof.
  intros env doc e H. unfold after_post in H.
  destruct (backend_reply _ _ _ _) as [|st [body|]]; [|destruct (Unmarshal body)|];
    in_list H; subst; reflexivity.
Qed.

(** [generate] closes the backend body exactly when the backend call returned a response, and then the close is its last event. *)
Lemma handler_close_body :
  forall s form env,
    (In CloseBody (run s form env) <->
     exists doc st rd,
       In (Post backend_url "application/json" (JObject doc)) (run s form env) /\
       backend_reply env backend_url "application/json" (JObject doc) = Reply st rd) /\
    (In CloseBody (run s form env) -> last (run s form env) (Respond 0 "") = CloseBody).
Proof.
  intros s form env.
  destruct (run_cases s form env) as [[msg ->]|(w & h & n & g & so & _ & _ & _ & _ & _ & _ & ->)].
  { split; [split; [intro H; in_list H; discriminate|]|intro H; in_list H; discriminate].
    intros (doc & st & rd & H & _). in_list H; discriminate. }
  set (doc := payload_doc (FormValue form "prompt") w h n g (seed_value so)).
  assert (Hpre : forall e, In e (seed_prefix so) -> e <> CloseBody /\ is_post e = false).
  { intros e He. split; [intros ->; exact (seed_prefix_no_close so He)|].
    exact (seed_prefix_no_post so e He). }
  unfold after_validation.
  destruct g as [sg|sg| |sg mg eg].
  2, 3: split; [split|];
    [ intro H; apply in_app_or in H as [H|H]; [exact (False_ind _ (proj1 (Hpre _ H) eq_refl))|];
      in_list H; discriminate
    | intros (d & st & rd & H & _); apply in_app_or in H as [H|H];
      [discriminate (proj2 (Hpre _ H))|]; in_list H; discriminate
    | intro H; apply in_app_or in H as [H|H]; [exact (False_ind _ (proj1 (Hpre _ H) eq_refl))|];
      in_list H; discriminate ].
  all: assert (Hpost : forall d, In (Post backend_url "application/json" (JObject d))
                        (seed_prefix so ++ Post backend_url "application/json" (JObject doc)
                           :: after_post env doc) -> d = doc)
         by (intros d H; apply in_app_or in H as [H|H];
             [discriminate (proj2 (Hpre _ H))|];
             destruct H as [H|H]; [injection H as ->; reflexivity|];
             discriminate (after_post_no_post_event _ _ _ H)).
  all: unfold after_post in *.
  all: destruct (backend_reply env backend_url "application/json" (JObject doc)) as [|st [body|]] eqn:Eb;
    [|destruct (Unmarshal body)|].
  all: try (split; [split|];
    [ intro H; apply in_app_or in H as [H|H]; [exact (False_ind _ (proj1 (Hpre _ H) eq_refl))|];
      in_list H; discriminate
    | intros (d & st & rd & H & Hb); rewrite (Hpost d H), Eb in Hb; discriminate
    | intro H; apply in_app_or in H as [H|H]; [exact (False_ind _ (proj1 (Hpre _ H) eq_refl))|];
      in_list H; discriminate ]; fail).
  all: split; [split|].
  all: try (intros _; exists doc; eexists; eexists; split;
            [apply in_or_app; right; left; reflexivity | exact Eb]).
  all: try (intros _; destruct so; reflexivity).
  all: try (intros _; apply in_or_app; right; simpl; tauto).
Qed.

Lemma events_after_post_app :
  forall pre l, (forall e, In e pre -> is_post e = false) ->
    events_after_post (pre ++ l) = events_after_post l.
Proof.
  induction pre as [|e pre IH]; intros l H; [reflexivity|].
  simpl. rewrite (H e (or_introl eq_refl)). apply IH. intros e' He'. apply H. right. exact He'.
Qed.

(** [generate] renders result.html only with status 200, and only with the decoded map of a body the backend returned. *)
Lemma handler_render_origin :
  forall s form env st name data,
    In (Rendered st name data) (run s form env) ->
    st = 200 /\ name = "result.html"%string /\
    exists doc st' body result,
      In (Post backend_url "application/json" (JObject doc)) (run s form env) /\
      backend_reply env backend_url "application/json" (JObject doc) = Reply st' (Some body) /\
      Unmarshal body = Some result /\
      data = result_data env result.
Proof.
  intros s form env st name data H.
  destruct (run_cases s form env) as [[msg Hrun]|(w & h & n & g & so & _ & _ & _ & _ & _ & _ & Hrun)];
    rewrite Hrun in *.
  { in_list H; discriminate. }
  set (doc := payload_doc (FormValue form "prompt") w h n g (seed_value so)) in *.
  apply in_app_or in H as [H|H].
  { destruct so; simpl in H; in_list H; discriminate. }
  unfold after_validation in *.
  destruct g as [sg|sg| |sg mg eg]; try (in_list H; discriminate).
  all: destruct H as [H|H]; [discriminate|].
  all: unfold after_post in *.
  all: destruct (backend_reply env backend_url "application/json" (JObject doc)) as [|st0 [body|]] eqn:Eb;
    [|destruct (Unmarshal body) as [result|] eqn:Eu|]; in_list H; try discriminate.
  all: injection H as <- <- <-; split; [reflexivity|]; split; [reflexivity|].
  all: exists doc, st0, body, result; split; [apply in_or_app; right; left; reflexivity|].
  all: split; [exact Eb|]; split; [exact Eu|reflexivity].
Qed.

(** Once [generate] has called the backend, it writes exactly one more response: a 500 or the 200 rendering of result.html. *)
Lemma handler_after_post :
  forall s form env,
    posts (run s form env) <> [] ->
    exists e, responses (events_after_post (run s form env)) = [e] /\
      ((exists msg, e = Respond 500 msg) \/ (exists data, e = Rendered 200 "result.html" data)).
Proof.
  intros s form env Hp.
  destruct (run_cases s form env) as [[msg Hrun]|(w & h & n & g & so & _ & _ & _ & _ & _ & _ & Hrun)];
    rewrite Hrun in *.
  { exfalso. apply Hp. reflexivity. }
  rewrite events_after_post_app by (apply seed_prefix_no_post).
  unfold after_validation in *.
  destruct g as [sg|sg| |sg mg eg];
    try (exfalso; apply Hp; rewrite posts_app; destruct so; reflexivity).
  all: simpl events_after_post; unfold after_post.
  all: destruct (backend_reply _ _ _ _) as [|st0 [body|]]; [|destruct (Unmarshal body)|].
  all: eexists; split; [reflexivity|]; eauto.
Qed.

(** With all fields valid (seed absent or valid) and a non-NaN guidance, [generate] writes one response and calls the backend once. *)
Lemma handler_valid_one_response :
  forall s form env w h n g sd,
    FormValue form "prompt" <> EmptyString ->
    parseFormInt (FormValue form "width") 64 1024 = inl w ->
    parseFormInt (FormValue form "height") 64 1024 = inl h ->
    parseFormInt (FormValue form "num_steps") 1 10 = inl n ->
    parseFormFloat (FormValue form "guidance_scale") f0 f10 = inl g ->
    seed_field form sd ->
    is_nan g = false ->
    List.length (responses (run s form env)) = 1%nat /\ List.length (posts (run s form env)) = 1%nat.
Proof.
  intros s form env w h n g sd Hp Hw Hh Hn Hg Hs Hnan.
  set (so := match sd with None => NoSeed | Some v => GoodSeed v end).
  assert (Hso : seed_state form so) by (destruct sd; exact Hs).
  rewrite (run_validated s form env w h n g so Hp Hw Hh Hn Hg Hso).
  pose proof (parseFormFloat_not_inf _ _ Hg) as Hinf.
  assert (Hpre : seed_prefix so = []) by (destruct sd; reflexivity).
  rewrite Hpre. simpl app. unfold after_validation.
  destruct g; try discriminate.
  all: rewrite responses_cons, posts_cons, after_post_no_post; simpl is_response; simpl is_post;
    cbv iota; split; [apply after_post_one_response|reflexivity].
Qed.

Lemma shr_1_nonneg : forall mrs, 0 <= shr_m mrs -> 0 <= shr_m (shr_1 mrs).
Proof.
  intros [m r s] H. simpl in H. unfold shr_1.
  destruct m as [|[p|p|]|p]; simpl; lia.
Qed.

Lemma iter_pos_nonneg : forall p mrs, 0 <= shr_m mrs -> 0 <= shr_m (iter_pos shr_1 p mrs).
Proof.
  induction p as [p IH|p IH|]; intros mrs H; simpl.
  - apply IH, IH, shr_1_nonneg, H.
  - apply IH, IH, H.
  - apply shr_1_nonneg, H.
Qed.

Lemma shr_fexp_nonneg : forall m e l, 0 <= m -> 0 <= shr_m (fst (shr_fexp prec emax m e l)).
Proof.
  intros m e l H. unfold shr_fexp, shr.
  destruct (fexp prec emax (Zdigits2 m + e) - e) as [|p|p]; simpl;
    try (destruct l as [|[| |]]; simpl; exact H).
  apply iter_pos_nonneg. destruct l as [|[| |]]; simpl; exact H.
Qed.

Lemma binary_round_aux_not_nan :
  forall sx mx ex lx, 0 <= mx -> binary_round_aux prec emax sx mx ex lx <> S754_nan.
Proof.
  intros sx mx ex lx Hm. unfold binary_round_aux.
  pose proof (shr_fexp_nonneg mx ex lx Hm) as H1.
  destruct (shr_fexp prec emax mx ex lx) as [mrs' e'] eqn:E1. simpl in H1.
  assert (H2 : 0 <= round_nearest_even (shr_m mrs') (loc_of_shr_record mrs')).
  { unfold round_nearest_even. destruct (loc_of_shr_record mrs') as [|[| |]];
      try destruct (Z.even _); lia. }
  pose proof (shr_fexp_nonneg _ e' loc_Exact H2) as H3.
  destruct (shr_fexp prec emax _ e' loc_Exact) as [mrs'' e''] eqn:E2. simpl in H3.
  destruct (shr_m mrs'') as [|p|p]; try discriminate; [|lia].
  destruct (e'' <=? emax - prec); discriminate.
Qed.

Lemma binary_normalize_not_nan : forall m e sz, binary_normalize prec emax m e sz <> S754_nan.
Proof.
  intros [|p|p] e sz; simpl; try discriminate;
    unfold binary_round; destruct (shl_align p e _) as [mz ez];
    apply binary_round_aux_not_nan; lia.
Qed.

Lemma SFdiv_core_binary_nonneg : forall m1 e1 m2 e2, 0 <= m1 -> 0 < m2 ->
  0 <= fst (fst (SFdiv_core_binary prec emax m1 e1 m2 e2)).
Proof.
  intros m1 e1 m2 e2 H1 H2. unfold SFdiv_core_binary. cbv zeta.
  match goal with |- context [Z.div_eucl ?a m2] =>
    assert (Ha : 0 <= a) by (destruct (_ - _ - _); try lia; apply Z.shiftl_nonneg; lia);
    pose proof (Z_div_mod a m2 ltac:(lia)) as Hdm;
    destruct (Z.div_eucl a m2) as [q r] end.
  destruct Hdm as [Hq Hr]. simpl. nia.
Qed.

Lemma round_decimal_not_nan : forall neg m k, 0 <= m -> round_decimal neg m k <> S754_nan.
Proof.
  intros neg m k Hm. unfold round_decimal.
  destruct (m =? 0); [discriminate|].
  destruct (0 <=? k) eqn:Hk; [apply binary_normalize_not_nan|].
  apply Z.leb_gt in Hk.
  assert (Hd : 0 < 10 ^ (- k)) by (apply Z.pow_pos_nonneg; lia).
  pose proof (SFdiv_core_binary_nonneg m 0 (10 ^ (- k)) 0 Hm Hd) as Hq.
  destruct (SFdiv_core_binary prec emax m 0 (10 ^ (- k)) 0) as [[q e'] l].
  apply binary_round_aux_not_nan. exact Hq.
Qed.

Lemma round_binary_not_nan : forall neg m k, round_binary neg m k <> S754_nan.
Proof.
  intros neg m k. unfold round_binary.
  destruct (m =? 0); [discriminate|]. apply binary_normalize_not_nan.
Qed.

Lemma mant_loop_nonneg : forall s hex st, 0 <= mant st -> 0 <= mant (fst (mant_loop hex st s)).
Proof.
  induction s as [|c s IH]; intros hex [us sd sg n d m] Hm; simpl in Hm |- *; [exact Hm|].
  destruct (Ascii.eqb c "_"%char); [apply IH; exact Hm|].
  destruct (Ascii.eqb c "."%char); [destruct sd; [exact Hm|apply IH; exact Hm]|].
  destruct (is_digit c) eqn:Hd.
  - destruct (Ascii.eqb c "0"%char && (n =? 0)); apply IH; simpl; [exact Hm|].
    unfold is_digit in Hd; unfold digit_val; apply andb_prop in Hd; destruct Hd as [H1 _];
    apply Z.leb_le in H1; destruct hex; lia.
  - destruct (hex && (97 <=? byte_val (lower c)) && (byte_val (lower c) <=? 102)) eqn:Hx;
      [|exact Hm].
    apply IH; simpl. apply andb_prop in Hx; destruct Hx as [Hx _].
    apply andb_prop in Hx; destruct Hx as [_ Hx]. apply Z.leb_le in Hx. lia.
Qed.

Lemma readFloat_mant_nonneg : forall s0 neg hex m k rest,
  readFloat s0 = Some (neg, hex, m, k, rest) -> 0 <= m.
Proof.
  intros s0 neg hex m k rest H. unfold readFloat in H.
  do 2 match type of H with context [match ?M with pair _ _ => _ end] => destruct M end.
  match type of H with context [mant_loop ?h ?st0 ?s] =>
    pose proof (mant_loop_nonneg s h st0 ltac:(simpl; lia)) as Hm;
    destruct (mant_loop h st0 s) as [st s'] end.
  simpl in Hm.
  destruct (negb (sawdigits st)); [discriminate|]. cbv zeta in H.
  match type of H with (match ?R with Some _ => _ | None => _ end) = _ =>
    destruct R as [[[? ?] ?]|]; [|discriminate] end.
  match type of H with (if ?b then _ else _) = _ => destruct b; [discriminate|] end.
  injection H; intros; subst; exact Hm.
Qed.

Lemma fold_lower_n : forall c,
  Ascii.eqb (if (65 <=? byte_val c) && (byte_val c <=? 90)
             then ascii_of_Z (byte_val c + 32) else c) "n"%char = true ->
  c = "n"%char \/ c = "N"%char.
Proof.
  intros c H; destruct c as [[] [] [] [] [] [] [] []]; vm_compute in H;
    first [discriminate H | left; reflexivity | right; reflexivity].
Qed.

Lemma fold_lower_a : forall c,
  Ascii.eqb (if (65 <=? byte_val c) && (byte_val c <=? 90)
             then ascii_of_Z (byte_val c + 32) else c) "a"%char = true ->
  c = "a"%char \/ c = "A"%char.
Proof.
  intros c H; destruct c as [[] [] [] [] [] [] [] []]; vm_compute in H;
    first [discriminate H | left; reflexivity | right; reflexivity].
Qed.

(** [strconv.ParseFloat] returns NaN exactly for the three-byte input "nan" in any letter case: no numeric literal rounds to NaN. *)
Theorem ParseFloat_nan : forall s,
  ParseFloat s = Some NaN <->
  exists a b c, s = String a (String b (String c EmptyString)) /\
    (a = "n"%char \/ a = "N"%char) /\ (b = "a"%char \/ b = "A"%char) /\
    (c = "n"%char \/ c = "N"%char).
Proof.
  intros s; split.
  - unfold ParseFloat. intros H.
    destruct (special s) as [[f n]|] eqn:Hs.
    + destruct (n =? String.length s)%nat eqn:Hn; [|discriminate].
      injection H as Hf; subst f. apply Nat.eqb_eq in Hn.
      destruct s as [|c s']; [discriminate|]. unfold special in Hs. cbv zeta in Hs.
      destruct (Ascii.eqb c "+"%char);
        [repeat match type of Hs with (if ?b then _ else _) = _ => destruct b end;
         discriminate|].
      destruct (Ascii.eqb c "-"%char);
        [repeat match type of Hs with (if ?b then _ else _) = _ => destruct b end;
         discriminate|].
      destruct (Ascii.eqb c "i"%char || Ascii.eqb c "I"%char);
        [repeat match type of Hs with (if ?b then _ else _) = _ => destruct b end;
         discriminate|].
      destruct (Ascii.eqb c "n"%char || Ascii.eqb c "N"%char); [|discriminate].
      destruct (commonPrefixLenIgnoreCase (String c s') "nan" =? 3)%nat eqn:Hcp;
        [|discriminate].
      injection Hs as Hn3; subst n. apply Nat.eqb_eq in Hcp.
      destruct s' as [|b [|c2 [|x s''']]]; simpl in Hn; try discriminate.
      simpl in Hcp.
      destruct (Ascii.eqb _ "n"%char) eqn:E1 in Hcp; [|discriminate].
      destruct (Ascii.eqb _ "a"%char) eqn:E2 in Hcp; [|discriminate].
      destruct (Ascii.eqb _ "n"%char) eqn:E3 in Hcp; [|discriminate].
      exists c, b, c2. split; [reflexivity|].
      split; [apply fold_lower_n, E1|]. split; [apply fold_lower_a, E2|].
      apply fold_lower_n, E3.
    + destruct (readFloat s) as [[[[[neg hex] m] k] rest]|] eqn:Hr; [|discriminate].
      destruct rest; [|discriminate].
      destruct (is_inf _); [discriminate|].
      injection H as Hf. pose proof (readFloat_mant_nonneg _ _ _ _ _ _ Hr) as Hm.
      destruct hex; [exact (False_ind _ (round_binary_not_nan _ _ _ Hf))|].
      exact (False_ind _ (round_decimal_not_nan _ _ _ Hm Hf)).
  - intros (a & b & c & -> & [-> | ->] & [-> | ->] & [-> | ->]); vm_compute; reflexivity.
Qed.

(** ** Instances of the properties above *)

Lemma Atoi_fmt_d_witness : Atoi (fmt_d (-512)) = Some (-512).
Proof. apply (Atoi_fmt_d (-512)); unfold MinInt, MaxInt; lia. Defined.

Lemma Atoi_syntax_witness :
  MinInt <= 42 <= MaxInt /\
  exists body, body <> EmptyString /\ all_digits body = true /\
    ("+42"%string = body \/ "+42"%string = String "+"%char body \/ "+42"%string = String "-"%char body).
Proof. apply (Atoi_syntax "+42" 42); vm_compute; reflexivity. Defined.

Lemma parseFormInt_full_range_witness :
  "invalid integer: 9223372036854775808"%string = ("invalid integer: " ++ "9223372036854775808")%string.
Proof.
  apply (parseFormInt_full_range "9223372036854775808" "invalid integer: 9223372036854775808");
    vm_compute; reflexivity.
Defined.

Lemma parseFormFloat_range_witness :
  ParseFloat "5.5" = Some (S754_finite false 6192449487634432 (-50)) /\
  (S754_finite false 6192449487634432 (-50) = NaN \/ f0 = NaN \/ f10 = NaN \/
   (SFleb f0 (S754_finite false 6192449487634432 (-50)) = true /\
    SFleb (S754_finite false 6192449487634432 (-50)) f10 = true)).
Proof. apply (parseFormFloat_range "5.5" f0 f10); vm_compute; reflexivity. Defined.

Lemma Round_below_half_witness : Round (S754_finite true 3 (-3)) = S754_zero true.
Proof. apply (Round_below_half true 3 (-3)); vm_compute; reflexivity. Defined.

Lemma Seconds_whole_witness : Seconds (3 * Second) = float_of_Z 3.
Proof. apply (Seconds_whole 3); lia. Defined.

Lemma roundFloat_exact_ratio_witness :
  roundFloat (Seconds 1234567890) 2 =
    fdiv (Round (fmul (Seconds 1234567890) (float_of_Z (10 ^ 2)))) (float_of_Z (10 ^ 2)).
Proof. apply (roundFloat_exact_ratio (Seconds 1234567890) 2); lia. Defined.

Lemma Marshal_ascii_string_witness : Marshal (AString "cat") = Some (JString "cat").
Proof. apply (Marshal_ascii_string "cat"); vm_compute; reflexivity. Defined.

Lemma Marshal_object_sorted_witness :
  exists js, Sorted key_le js /\
    Permutation (map fst js) (map fst [("width"%string, AInt 512); ("prompt"%string, AString "cat")]) /\
    [("prompt"%string, JString "cat"); ("width"%string, JInt 512)] =
      map (fun kj => (sanitize (fst kj), snd kj)) js.
Proof.
  apply (Marshal_object_sorted [("width"%string, AInt 512); ("prompt"%string, AString "cat")]);
    vm_compute; reflexivity.
Defined.

Lemma handler_statuses_witness :
  (exists msg, Respond 400 "Seed is invalid: invalid integer: abc" = Respond 400 msg) \/
  (exists msg, Respond 400 "Seed is invalid: invalid integer: abc" = Respond 500 msg) \/
  (exists data, Respond 400 "Seed is invalid: invalid integer: abc" = Rendered 200 "result.html" data).
Proof.
  apply (handler_statuses sample_server (sample_form "0.0" "abc") env_ok
           (Respond 400 "Seed is invalid: invalid integer: abc")).
  vm_compute; left; reflexivity.
Defined.

Lemma handler_render_origin_witness :
  200 = 200 /\ "result.html"%string = "result.html"%string /\
  exists doc st' body result,
    In (Post backend_url "application/json" (JObject doc)) (run sample_server (sample_form "0.0" "") env_ok) /\
    backend_reply env_ok backend_url "application/json" (JObject doc) = Reply st' (Some body) /\
    Unmarshal body = Some result /\
    result_data env_ok [("image"%string, AString "data:image/png;base64,AAAA")] = result_data env_ok result.
Proof.
  apply (handler_render_origin sample_server (sample_form "0.0" "") env_ok 200 "result.html"
           (result_data env_ok [("image"%string, AString "data:image/png;base64,AAAA")])).
  vm_compute; repeat (first [left; reflexivity | right]).
Defined.

Lemma handler_after_post_witness :
  exists e, responses (events_after_post (run sample_server (sample_form "0.0" "") env_ok)) = [e] /\
    ((exists msg, e = Respond 500 msg) \/ (exists data, e = Rendered 200 "result.html" data)).
Proof.
  apply (handler_after_post sample_server (sample_form "0.0" "") env_ok); vm_compute; discriminate.
Defined.

Lemma handler_valid_one_response_witness :
  List.length (responses (run sample_server (sample_form "0.0" "42") env_ok)) = 1%nat /\
  List.length (posts (run sample_server (sample_form "0.0" "42") env_ok)) = 1%nat.
Proof.
  apply (handler_valid_one_response sample_server (sample_form "0.0" "42") env_ok 512 384 4 f0 (Some 42));
    vm_compute; first [reflexivity | discriminate].
Defined.
